(** * The plugin manager of move_base_flex

    A shallow embedding of [mbf_abstract_nav::AbstractPluginManager<PluginType>]
    (mbf_abstract_nav/impl/abstract_plugin_manager.tcc) and the properties of
    its registry: loading, duplicate detection, per-name failures, queries and
    clearing.

    The class keeps three containers ([plugins_], [plugins_type_], [names_]),
    two callbacks ([loadPlugin_], [initPlugin_]) and a handle to a ROS node from
    which it reads its parameters.  Member functions that touch the node, the
    callbacks or the logger are functions in a small state monad over [State];
    the [const] member functions are plain functions of the manager.

    The callbacks are functions on a world [W] of their own: they may answer
    differently from one call to the next, but they neither call back into
    the manager nor change the parameters it reads while a call runs.  The
    parameters change between calls only ([OpEnvironment]). *)

From stdpp Require Import gmap strings list fin_maps.

Local Open Scope string_scope.
Local Open Scope list_scope.

(** ** Data model *)

(** [PluginType::Ptr] is a shared pointer: [None] is the null pointer. *)
Definition Ptr (P : Type) : Type := option P.

(** The parameter values that [node_handle_] gives.  The constructor declares
    the list parameter with a [std::vector<std::string>] default and every
    [<name>.type] with [PARAMETER_STRING], so the values are kept by type;
    a parameter that has no value (declared or not) has no entry. *)
Record Node : Type := mkNode {
  string_array_parameters : gmap string (list string);
  string_parameters : gmap string string
}.

(** What the manager does that an observer can see: the messages it hands to
    the logger and the calls it makes to its two callbacks, in order.
    [CalledClearPlugins] marks a call of [clearPlugins()] in the history of a
    run (see [exec_op]); the function itself logs nothing. *)
Inductive Event (P : Type) : Type :=
  | WarnNoPluginsConfigured (param_name : string)
  | ErrorAlreadyLoaded (name : string)
  | InfoLoaded (type name : string)
  | ErrorCouldNotLoad (name type : string)
  | DebugFound (name : string)
  | WarnNotYetLoaded (name : string)
  | CalledLoadPlugin (type : string)
  | CalledInitPlugin (name : string) (plugin_ptr : Ptr P)
  | CalledClearPlugins.

Arguments WarnNoPluginsConfigured {P} _.
Arguments ErrorAlreadyLoaded {P} _.
Arguments InfoLoaded {P} _ _.
Arguments ErrorCouldNotLoad {P} _ _.
Arguments DebugFound {P} _.
Arguments WarnNotYetLoaded {P} _.
Arguments CalledLoadPlugin {P} _.
Arguments CalledInitPlugin {P} _ _.
Arguments CalledClearPlugins {P}.

(** The members of [AbstractPluginManager<PluginType>].  [W] is the state of
    the world outside the manager, which the callbacks may read and change
    (a factory may build a new instance on every call). *)
Record Manager (P W : Type) : Type := mkManager {
  param_name_ : string;
  loadPlugin_ : string -> W -> Ptr P * W;
  initPlugin_ : string -> Ptr P -> W -> bool * W;
  plugins_ : gmap string (Ptr P);
  plugins_type_ : gmap string string;
  names_ : list string
}.

Arguments mkManager {P W} _ _ _ _ _ _.
Arguments param_name_ {P W} _.
Arguments loadPlugin_ {P W} _ _ _.
Arguments initPlugin_ {P W} _ _ _ _.
Arguments plugins_ {P W} _.
Arguments plugins_type_ {P W} _.
Arguments names_ {P W} _.

(** The manager ([self]), the node it points to, the world of its callbacks
    and the history of events so far (oldest first). *)
Record State (P W : Type) : Type := mkState {
  self : Manager P W;
  node : Node;
  world : W;
  history : list (Event P)
}.

Arguments mkState {P W} _ _ _ _.
Arguments self {P W} _.
Arguments node {P W} _.
Arguments world {P W} _.
Arguments history {P W} _.

(** ** The state monad of the member functions *)

Definition M (P W A : Type) : Type := State P W -> A * State P W.

Definition ret {P W A} (a : A) : M P W A := fun s => (a, s).

Definition bind {P W A B} (m : M P W A) (k : A -> M P W B) : M P W B :=
  fun s => let '(a, s1) := m s in k a s1.

Notation "'let*' x ':=' m 'in' k" := (bind m (fun x => k))
  (at level 10, x name, m at level 100, k at level 200).
Notation "m '>>' k" := (bind m (fun _ => k))
  (at level 90, right associativity).

Definition this {P W} : M P W (Manager P W) := fun s => (self s, s).

Definition set_this {P W} (m : Manager P W) : M P W unit :=
  fun s => (tt, mkState m (node s) (world s) (history s)).

Definition record {P W} (e : Event P) : M P W unit :=
  fun s => (tt, mkState (self s) (node s) (world s) (history s ++ [e])).

(** The [RCLCPP_*] macros: one event per message. *)
Definition RCLCPP_WARN {P W} (e : Event P) : M P W unit := record e.
Definition RCLCPP_ERROR {P W} (e : Event P) : M P W unit := record e.
Definition RCLCPP_INFO {P W} (e : Event P) : M P W unit := record e.
Definition RCLCPP_DEBUG {P W} (e : Event P) : M P W unit := record e.

(** [node_handle_->get_parameter(name, out)]: [out] is overwritten when the
    parameter is set and keeps its value otherwise; the boolean result is
    dropped by every caller. *)
Definition get_parameter_strings {P W} (name : string) (out : list string)
  : M P W (list string) :=
  fun s => (default out (string_array_parameters (node s) !! name), s).

Definition get_parameter_string {P W} (name : string) (out : string)
  : M P W string :=
  fun s => (default out (string_parameters (node s) !! name), s).

(** Calls of the two [std::function] members, each noted in the history. *)
Definition call_loadPlugin {P W} (type : string) : M P W (Ptr P) :=
  fun s =>
    let '(plugin_ptr, w) := loadPlugin_ (self s) type (world s) in
    (plugin_ptr, mkState (self s) (node s) w (history s ++ [CalledLoadPlugin type])).

Definition call_initPlugin {P W} (name : string) (plugin_ptr : Ptr P) : M P W bool :=
  fun s =>
    let '(ok, w) := initPlugin_ (self s) name plugin_ptr (world s) in
    (ok, mkState (self s) (node s) w (history s ++ [CalledInitPlugin name plugin_ptr])).

(** ** std::map and std::vector operations *)

(** [std::map::insert]: the pair is stored only when the key is new. *)
Definition std_map_insert {V} (k : string) (v : V) (m : gmap string V)
  : gmap string V :=
  match m !! k with
  | Some _ => m
  | None => <[k := v]> m
  end.

(** [std::map::count]: 1 or 0. *)
Definition std_map_count {V} (k : string) (m : gmap string V) : nat :=
  match m !! k with
  | Some _ => 1
  | None => 0
  end.

(** [std::map::empty]. *)
Definition std_map_empty {V} (m : gmap string V) : bool := Nat.eqb (size m) 0.

(** [m.find(k) != m.end()]. *)
Definition std_map_found {V} (k : string) (m : gmap string V) : bool :=
  match m !! k with
  | Some _ => true
  | None => false
  end.

Definition vector_empty {A} (v : list A) : bool :=
  match v with
  | [] => true
  | _ => false
  end.

Definition push_back {A} (v : list A) (x : A) : list A := v ++ [x].

(** ** The member functions *)

(** The admission of lines 109-113: both maps and the name list. *)
Definition admit_plugin {P W} (name type : string) (plugin_ptr : Ptr P)
  (m : Manager P W) : Manager P W :=
  mkManager (param_name_ m) (loadPlugin_ m) (initPlugin_ m)
    (std_map_insert name plugin_ptr (plugins_ m))
    (std_map_insert name type (plugins_type_ m))
    (push_back (names_ m) name).

(** The body of the [for] loop of [loadPlugins()] for one name.  [Some b]
    is [return b;] out of [loadPlugins()], [None] goes on with the next
    name. *)
Definition load_one {P W} (name : string) : M P W (option bool) :=
  let* m := this in
  if std_map_found name (plugins_ m) then
    RCLCPP_ERROR (ErrorAlreadyLoaded name) >>
    ret (Some false)
  else
    let* type := get_parameter_string (name +:+ ".type") "" in
    let* plugin_ptr := call_loadPlugin type in
    let* ok := match plugin_ptr with
               | Some _ => call_initPlugin name plugin_ptr
               | None => ret false
               end in
    if ok then
      let* m := this in
      set_this (admit_plugin name type plugin_ptr m) >>
      RCLCPP_INFO (InfoLoaded type name) >>
      ret None
    else
      RCLCPP_ERROR (ErrorCouldNotLoad name type) >>
      ret None.

(** The [for] loop over [plugin_param_list]. *)
Fixpoint load_loop {P W} (plugin_param_list : list string) : M P W (option bool) :=
  match plugin_param_list with
  | [] => ret None
  | name :: rest =>
      let* r := load_one name in
      match r with
      | Some b => ret (Some b)
      | None => load_loop rest
      end
  end.

Definition loadPlugins {P W} : M P W bool :=
  let* m := this in
  let* plugin_param_list := get_parameter_strings (param_name_ m) [] in
  if vector_empty plugin_param_list then
    RCLCPP_WARN (WarnNoPluginsConfigured (param_name_ m)) >>
    ret false
  else
    let* r := load_loop plugin_param_list in
    match r with
    | Some b => ret b
    | None =>
        let* m := this in
        ret (if std_map_empty (plugins_ m) then false else true)
    end.

Definition getLoadedNames {P W} (m : Manager P W) : list string := names_ m.

(** [static_cast<bool>(plugins_.count(name))]. *)
Definition hasPlugin {P W} (name : string) (m : Manager P W) : bool :=
  negb (Nat.eqb (std_map_count name (plugins_ m)) 0).

(** What a member function that may dereference [end()] does. *)
Inductive Outcome (A : Type) : Type :=
  | Returns (a : A)
  | UndefinedBehaviour.

Arguments Returns {A} _.
Arguments UndefinedBehaviour {A}.

(** [plugins_type_.find(name)->second], with no test against [end()]. *)
Definition getType {P W} (name : string) (m : Manager P W) : Outcome string :=
  match plugins_type_ m !! name with
  | Some type => Returns type
  | None => UndefinedBehaviour
  end.

Definition getPlugin {P W} (name : string) : M P W (Ptr P) :=
  let* m := this in
  match plugins_ m !! name with
  | Some plugin_ptr =>
      RCLCPP_DEBUG (DebugFound name) >>
      ret plugin_ptr
  | None =>
      RCLCPP_WARN (WarnNotYetLoaded name) >>
      ret None
  end.

Definition clearPlugins {P W} : M P W unit :=
  let* m := this in
  set_this (mkManager (param_name_ m) (loadPlugin_ m) (initPlugin_ m) ∅ ∅ []).

(** ** Construction and runs *)

(** [node_handle_->declare_parameter(name, default)]: the value of the
    parameter, which is the default when nothing has set it. *)
Definition declare_parameter_strings (name : string) (dflt : list string)
  (n : Node) : list string * Node :=
  match string_array_parameters n !! name with
  | Some v => (v, n)
  | None => (dflt, mkNode (<[name := dflt]> (string_array_parameters n))
                          (string_parameters n))
  end.

(** The constructor: the members are initialised, the containers start
    empty, the list parameter is declared.  Declaring [<name>.type] with a
    type and no value sets nothing.  (On a list with a repeated name the
    second declaration of the node throws and no manager is built; the
    model builds one all the same: the states it adds are those that a
    change of the parameters after the construction reaches anyway.) *)
Definition construct {P W} (param_name : string)
  (loadPlugin : string -> W -> Ptr P * W)
  (initPlugin : string -> Ptr P -> W -> bool * W)
  (node_handle : Node) (w : W) : State P W :=
  let '(_, n) := declare_parameter_strings param_name [] node_handle in
  mkState (mkManager param_name loadPlugin initPlugin ∅ ∅ []) n w [].

(** What can happen to a manager after its construction: calls of its
    non-[const] member functions, and steps of its environment (the node's
    parameters and the callbacks' world change between calls).  The [const]
    member functions change nothing and are left out. *)
Inductive Op (W : Type) : Type :=
  | OpLoadPlugins
  | OpGetPlugin (name : string)
  | OpClearPlugins
  | OpEnvironment (n : Node) (w : W).

Arguments OpLoadPlugins {W}.
Arguments OpGetPlugin {W} _.
Arguments OpClearPlugins {W}.
Arguments OpEnvironment {W} _ _.

Definition exec_op {P W} (op : Op W) (s : State P W) : State P W :=
  match op with
  | OpLoadPlugins => (loadPlugins s).2
  | OpGetPlugin name => (getPlugin name s).2
  | OpClearPlugins => ((clearPlugins >> record CalledClearPlugins) s).2
  | OpEnvironment n w => mkState (self s) n w (history s)
  end.

Definition exec_ops {P W} (ops : list (Op W)) (s : State P W) : State P W :=
  foldl (fun s op => exec_op op s) s ops.

Definition reachable {P W} (s : State P W) : Prop :=
  exists param_name loadPlugin initPlugin node_handle w ops,
    s = exec_ops ops (construct param_name loadPlugin initPlugin node_handle w).

(** ** Reading the history *)

(** The names admitted since the last [clearPlugins()], in the order of
    their admission. *)
Definition admitted_step {P} (acc : list string) (e : Event P) : list string :=
  match e with
  | InfoLoaded _ name => acc ++ [name]
  | CalledClearPlugins => []
  | _ => acc
  end.

Definition admitted_names {P} (h : list (Event P)) : list string :=
  foldl admitted_step [] h.

Definition is_callback_call {P} (e : Event P) : bool :=
  match e with
  | CalledLoadPlugin _ | CalledInitPlugin _ _ => true
  | _ => false
  end.

Definition is_duplicate_error {P} (e : Event P) : bool :=
  match e with
  | ErrorAlreadyLoaded _ => true
  | _ => false
  end.

(** The type strings of the factory calls in a history, and the arguments
    of the initializer calls, both in order. *)
Definition factory_calls {P} (h : list (Event P)) : list string :=
  omap (fun e => match e with
                 | CalledLoadPlugin type => Some type
                 | _ => None
                 end) h.

Definition initializer_calls {P} (h : list (Event P)) : list (string * Ptr P) :=
  omap (fun e => match e with
                 | CalledInitPlugin name plugin_ptr => Some (name, plugin_ptr)
                 | _ => None
                 end) h.

(** An initializer call that was handed the null pointer. *)
Definition null_initializer_call {P} (e : Event P) : bool :=
  match e with
  | CalledInitPlugin _ None => true
  | _ => false
  end.

(** ** Notions used in the statements *)

Section Notions.
Context {P W : Type}.
Implicit Types (s : State P W) (m : Manager P W) (name type : string).

(** The name list that [loadPlugins()] reads into [plugin_param_list]. *)
Definition configured_names s : list string :=
  default [] (string_array_parameters (node s) !! param_name_ (self s)).

(** The type string that [loadPlugins()] holds for [name]: the parameter
    [<name>.type], or the empty string of [std::string type;]. *)
Definition type_of_name s name : string :=
  default "" (string_parameters (node s) !! (name +:+ ".type")).

(** The four ways through the loop body, and no other. *)
Inductive load_one_case s name : option bool -> State P W -> Prop :=
  | case_registered :
      std_map_found name (plugins_ (self s)) = true ->
      load_one_case s name (Some false)
        (mkState (self s) (node s) (world s) (history s ++ [ErrorAlreadyLoaded name]))
  | case_factory_miss w1 :
      std_map_found name (plugins_ (self s)) = false ->
      loadPlugin_ (self s) (type_of_name s name) (world s) = (None, w1) ->
      load_one_case s name None
        (mkState (self s) (node s) w1
           (history s ++ [CalledLoadPlugin (type_of_name s name);
                          ErrorCouldNotLoad name (type_of_name s name)]))
  | case_init_failure p w1 w2 :
      std_map_found name (plugins_ (self s)) = false ->
      loadPlugin_ (self s) (type_of_name s name) (world s) = (Some p, w1) ->
      initPlugin_ (self s) name (Some p) w1 = (false, w2) ->
      load_one_case s name None
        (mkState (self s) (node s) w2
           (history s ++ [CalledLoadPlugin (type_of_name s name);
                          CalledInitPlugin name (Some p);
                          ErrorCouldNotLoad name (type_of_name s name)]))
  | case_admitted p w1 w2 :
      std_map_found name (plugins_ (self s)) = false ->
      loadPlugin_ (self s) (type_of_name s name) (world s) = (Some p, w1) ->
      initPlugin_ (self s) name (Some p) w1 = (true, w2) ->
      load_one_case s name None
        (mkState (admit_plugin name (type_of_name s name) (Some p) (self s)) (node s) w2
           (history s ++ [CalledLoadPlugin (type_of_name s name);
                          CalledInitPlugin name (Some p);
                          InfoLoaded (type_of_name s name) name])).

(** [s'] comes after [s] in one call: same node and members, and the
    registry and the history have only grown. *)
Record grows s s' : Prop := mkGrows {
  grows_node : node s' = node s;
  grows_param_name : param_name_ (self s') = param_name_ (self s);
  grows_loadPlugin : loadPlugin_ (self s') = loadPlugin_ (self s);
  grows_initPlugin : initPlugin_ (self s') = initPlugin_ (self s);
  grows_plugins : plugins_ (self s) ⊆ plugins_ (self s');
  grows_types : plugins_type_ (self s) ⊆ plugins_type_ (self s');
  grows_names : names_ (self s) `prefix_of` names_ (self s');
  grows_history : history s `prefix_of` history s'
}.

(** Events that neither admit nor clear. *)
Definition is_inert (e : Event P) : bool :=
  match e with
  | InfoLoaded _ _ | CalledClearPlugins => false
  | _ => true
  end.

(** The three views hold the same names, the list holds each once and in
    the order of admission, no stored pointer is null, and every recorded
    type is the one the factory was called with when the name was
    admitted. *)
Record consistent s : Prop := mkConsistent {
  cons_types : dom (plugins_type_ (self s)) = dom (plugins_ (self s));
  cons_names : list_to_set (names_ (self s)) =@{gset string} dom (plugins_ (self s));
  cons_nodup : NoDup (names_ (self s));
  cons_nonnull : forall name, plugins_ (self s) !! name <> Some None;
  cons_order : names_ (self s) = admitted_names (history s);
  cons_admission : forall name type,
    plugins_type_ (self s) !! name = Some type ->
    exists p h1 h2,
      plugins_ (self s) !! name = Some (Some p) /\
      history s = h1 ++ [CalledLoadPlugin type;
                         CalledInitPlugin name (Some p);
                         InfoLoaded type name] ++ h2 /\
      CalledClearPlugins ∉ h2
}.

(** Two states that differ only in what [loadPlugins()] does not look at:
    an older history [h] in front, and the list parameters of the node. *)
Definition same_upto (h : list (Event P)) s s' : Prop :=
  self s = self s' /\
  world s = world s' /\
  string_parameters (node s) = string_parameters (node s') /\
  history s = h ++ history s'.

End Notions.

(** Two states that the member functions cannot tell apart: they differ in
    their histories only. *)
Definition same_view {P W} (s s' : State P W) : Prop :=
  self s = self s' /\ node s = node s' /\ world s = world s'.

Arguments admitted_names : simpl never.
Arguments factory_calls : simpl never.
Arguments initializer_calls : simpl never.

(** ** Scenarios *)

(** A factory that knows the type "tA" only and hands out the numbers of a
    counter as instances; an initializer that refuses the name "p2". *)
Definition counting_factory (type : string) (w : nat) : Ptr nat * nat :=
  if String.eqb type "tA" then (Some w, S w) else (None, w).

Definition picky_init (name : string) (_ : Ptr nat) (w : nat) : bool * nat :=
  (negb (String.eqb name "p2"), w).

Definition scenario_node (names : list string) (types : list (string * string)) : Node :=
  mkNode {[ "planners" := names ]}
         (list_to_map (prod_map (fun n => n +:+ ".type") id <$> types)).

Definition scenario (names : list string) (types : list (string * string))
  : State nat nat :=
  construct "planners" counting_factory picky_init (scenario_node names types) 0.

(** The same name twice, with a type the factory knows. *)
Definition twice_loaded : State nat nat :=
  scenario ["p1"; "p1"] [("p1", "tA")].

(** The same name twice, with no type configured for it, then a name
    that loads. *)
Definition twice_failed : State nat nat :=
  scenario ["p1"; "p1"; "p3"] [("p3", "tA")].

(** Two names of a known type; the initializer refuses the second. *)
Definition second_refused : State nat nat :=
  scenario ["p1"; "p2"] [("p1", "tA"); ("p2", "tA")].

(** A factory that yields nothing on its first call and an instance on
    every later one, and the same name twice. *)
Definition slow_factory (type : string) (w : nat) : Ptr nat * nat :=
  match w with
  | 0 => (None, 1)
  | S _ => (Some w, S w)
  end.

Definition retried : State nat nat :=
  construct "planners" slow_factory picky_init
    (scenario_node ["p1"; "p1"] [("p1", "tA")]) 0.

(** The state after a first [loadPlugins()] in [second_refused]. *)
Definition after_first_load : State nat nat :=
  exec_ops [OpLoadPlugins] second_refused.

(** A manager that has loaded "p1" and whose name list has been replaced
    since by one name of an unknown type. *)
Definition replaced_later : State nat nat :=
  exec_ops [OpLoadPlugins; OpEnvironment (scenario_node ["p9"] [("p9", "tB")]) 1]
    (scenario ["p1"] [("p1", "tA")]).

(** A manager that has loaded "p1" and whose name list has been emptied
    since. *)
Definition emptied_later : State nat nat :=
  exec_ops [OpLoadPlugins; OpEnvironment (scenario_node [] []) 7]
    (scenario ["p1"] [("p1", "tA")]).

(** ** The robot simulator of the tests

    [mbf_test_utility::RobotSimulator] (mbf_test_utility/src/robot_simulator.cpp):
    a node that keeps the pose of a simulated robot, moves it with the last
    commanded velocity and publishes it as a transform and as odometry.

    Floating point numbers, ROS time and the tf2 library are not part of
    the repository: they are the interface [Tf2], and nothing is assumed
    of their operations.  A reading of the clock ([now()]) is an argument
    of the function that makes it.  What the node sends, logs and schedules
    is kept, in order, in [outputs]. *)

Module RobotSimulator.

Class Tf2 : Type := {
  double : Type;
  Time : Type;
  (** [0.0], the value of a number in a message that nobody has set. *)
  zero : double;
  (** [a * b] on [double]. *)
  multiply : double -> double -> double;
  (** [(a - b).seconds()] on [rclcpp::Time]. *)
  seconds_between : Time -> Time -> double;
  (** [geometry_msgs::msg::Transform] and [geometry_msgs::msg::Pose], with
      the values of default-constructed messages. *)
  TransformMsg : Type;
  PoseMsg : Type;
  unset_transform : TransformMsg;
  unset_pose : PoseMsg;
  (** [tf2::Quaternion], [tf2::Vector3], [tf2::Transform] and their
      operations. *)
  Quaternion : Type;
  Vector3 : Type;
  Transform : Type;
  setRPY : double -> double -> double -> Quaternion;
  Vector3_new : double -> double -> double -> Vector3;
  Transform_new : Quaternion -> Vector3 -> Transform;
  Transform_mul : Transform -> Transform -> Transform;
  (** [tf2::fromMsg] and the two [tf2::toMsg] of a transform. *)
  fromMsg : TransformMsg -> Transform;
  toMsg : Transform -> TransformMsg;
  toMsg_pose : Transform -> PoseMsg
}.

(** What a function that may throw gives. *)
Inductive Thrown (A : Type) : Type :=
  | Value (a : A)
  | ParameterTypeException.

Arguments Value {A} _.
Arguments ParameterTypeException {A}.

Section Model.
Context `{tf2 : Tf2}.

(** [geometry_msgs::msg::Twist]: [linear] and [angular], three numbers
    each. *)
Record Twist : Type := mkTwist {
  linear_x : double; linear_y : double; linear_z : double;
  angular_x : double; angular_y : double; angular_z : double
}.

Definition unset_twist : Twist := mkTwist zero zero zero zero zero zero.

(** [std_msgs::msg::Header]. *)
Record Header : Type := mkHeader {
  stamp : Time;
  frame_id : string
}.

(** [geometry_msgs::msg::TransformStamped]. *)
Record TransformStamped : Type := mkTransformStamped {
  header : Header;
  child_frame_id : string;
  transform : TransformMsg
}.

(** [geometry_msgs::msg::TwistStamped]. *)
Record TwistStamped : Type := mkTwistStamped {
  twist_header : Header;
  twist : Twist
}.

(** [nav_msgs::msg::Odometry]; its two covariance arrays are never
    written and are left out. *)
Record Odometry : Type := mkOdometry {
  odom_header : Header;
  odom_child_frame_id : string;
  odom_pose : PoseMsg;
  odom_twist : Twist
}.

(** [mbf_msgs::srv::SetTestRobotState]: the fields the callback reads of
    the request, and the field it writes of the response. *)
Record Request : Type := mkRequest {
  request_transform : TransformStamped;
  set_velocity : bool;
  velocity_robot : TwistStamped
}.

Record Response : Type := mkResponse {
  success : bool
}.

(** [rclcpp::Parameter]: a name and a value of one of the parameter
    types.  [as_bool()] and [as_string()] throw
    [rclcpp::ParameterTypeException] on a value of another type. *)
Inductive ParameterValue : Type :=
  | PARAMETER_NOT_SET
  | PARAMETER_BOOL (b : bool)
  | PARAMETER_INTEGER (i : Z)
  | PARAMETER_STRING (str : string)
  | PARAMETER_STRING_ARRAY (strs : list string)
  | PARAMETER_OTHER.

Record rclcpp_Parameter : Type := mk_rclcpp_Parameter {
  get_name : string;
  get_value : ParameterValue
}.

Definition as_bool (p : rclcpp_Parameter) : Thrown bool :=
  match get_value p with
  | PARAMETER_BOOL b => Value b
  | _ => ParameterTypeException
  end.

Definition as_string (p : rclcpp_Parameter) : Thrown string :=
  match get_value p with
  | PARAMETER_STRING str => Value str
  | _ => ParameterTypeException
  end.

(** [rcl_interfaces::msg::SetParametersResult]. *)
Record SetParametersResult : Type := mkSetParametersResult {
  successful : bool;
  reason : string
}.

(** The member [config_]. *)
Record Config : Type := mkConfig {
  is_robot_stuck : bool;
  parent_frame_id : string;
  robot_frame_id : string
}.

(** What the node puts out: [tf_broadcaster_->sendTransform],
    [odom_publisher_->publish], [create_wall_timer] (which replaces
    [update_robot_pose_timer_]), the call of [RCLCPP_WARN_THROTTLE] (which
    prints at most once a second) and the three error messages. *)
Inductive Output : Type :=
  | SentTransform (trf : TransformStamped)
  | PublishedOdometry (odom : Odometry)
  | CreatedWallTimer (milliseconds : nat)
  | WarnThrottleRobotStuck
  | ErrorSetStateParentFrame (expected got : string)
  | ErrorSetStateRobotFrame (expected got : string)
  | ErrorDroppingVelocity (expected got : string).

(** The members of the node that the callbacks read and write. *)
Record Simulator : Type := mkSimulator {
  config_ : Config;
  trf_parent_robot_ : TransformStamped;
  current_velocity_ : Twist;
  outputs : list Output
}.

Definition continuouslyUpdateRobotPose (t_now : Time) (r : Simulator) : Simulator :=
  let odom_msg :=
    mkOdometry (mkHeader t_now (parent_frame_id (config_ r)))
      (robot_frame_id (config_ r)) unset_pose unset_twist in
  let '(new_transform, odom_msg, logged) :=
    if Bool.eqb (is_robot_stuck (config_ r)) false then
      let seconds_since_last_update :=
        seconds_between t_now (stamp (header (trf_parent_robot_ r))) in
      let orientationTrf_robotTLastUpdate_robotTNow :=
        setRPY
          (multiply (angular_x (current_velocity_ r)) seconds_since_last_update)
          (multiply (angular_y (current_velocity_ r)) seconds_since_last_update)
          (multiply (angular_z (current_velocity_ r)) seconds_since_last_update) in
      let trf_robotTLastUpdate_robotTNow :=
        Transform_new orientationTrf_robotTLastUpdate_robotTNow
          (Vector3_new
             (multiply (linear_x (current_velocity_ r)) seconds_since_last_update)
             (multiply (linear_y (current_velocity_ r)) seconds_since_last_update)
             (multiply (linear_z (current_velocity_ r)) seconds_since_last_update)) in
      let trf_parent_robotTLastUpdate := fromMsg (transform (trf_parent_robot_ r)) in
      let trf_parent_robotTNow :=
        Transform_mul trf_parent_robotTLastUpdate trf_robotTLastUpdate_robotTNow in
      (toMsg trf_parent_robotTNow,
       mkOdometry (odom_header odom_msg) (odom_child_frame_id odom_msg)
         (toMsg_pose trf_parent_robotTNow) (current_velocity_ r),
       [])
    else
      (transform (trf_parent_robot_ r), odom_msg, [WarnThrottleRobotStuck]) in
  let trf :=
    mkTransformStamped
      (mkHeader t_now (frame_id (header (trf_parent_robot_ r))))
      (child_frame_id (trf_parent_robot_ r))
      new_transform in
  mkSimulator (config_ r) trf (current_velocity_ r)
    (outputs r ++ logged ++
     [SentTransform trf; PublishedOdometry odom_msg; CreatedWallTimer 10]).

Definition velocityCallback (vel : TwistStamped) (t_now : Time) (r : Simulator)
  : Simulator :=
  if negb (String.eqb (frame_id (twist_header vel)) (robot_frame_id (config_ r))) then
    mkSimulator (config_ r) (trf_parent_robot_ r) (current_velocity_ r)
      (outputs r ++ [ErrorDroppingVelocity (robot_frame_id (config_ r))
                       (frame_id (twist_header vel))])
  else
    let r := continuouslyUpdateRobotPose t_now r in
    mkSimulator (config_ r) (trf_parent_robot_ r) (twist vel) (outputs r).

(** The service callback: the request, the response as it comes in, and
    the two readings of the clock of its two pose updates.  It gives back
    the response as it leaves it. *)
Definition setStateCallback (request : Request) (response : Response)
  (t_first t_second : Time) (r : Simulator) : Response * Simulator :=
  if negb (String.eqb (frame_id (header (request_transform request)))
             (parent_frame_id (config_ r))) then
    (mkResponse false,
     mkSimulator (config_ r) (trf_parent_robot_ r) (current_velocity_ r)
       (outputs r ++ [ErrorSetStateParentFrame (parent_frame_id (config_ r))
                        (frame_id (header (request_transform request)))]))
  else if set_velocity request &&
          negb (String.eqb (frame_id (twist_header (velocity_robot request)))
                  (robot_frame_id (config_ r))) then
    (mkResponse false,
     mkSimulator (config_ r) (trf_parent_robot_ r) (current_velocity_ r)
       (outputs r ++ [ErrorSetStateRobotFrame (robot_frame_id (config_ r))
                        (frame_id (twist_header (velocity_robot request)))]))
  else
    let r := continuouslyUpdateRobotPose t_first r in
    let r :=
      if set_velocity request then
        mkSimulator (config_ r) (trf_parent_robot_ r)
          (twist (velocity_robot request)) (outputs r)
      else r in
    let r :=
      mkSimulator (config_ r)
        (mkTransformStamped (header (trf_parent_robot_ r))
           (child_frame_id (trf_parent_robot_ r))
           (transform (request_transform request)))
        (current_velocity_ r) (outputs r) in
    (response, continuouslyUpdateRobotPose t_second r).

(** The body of the loop of [setParametersCallback] for one parameter:
    the new [config_], or the exception of [as_bool()] or [as_string()]. *)
Definition set_one_parameter (parameter : rclcpp_Parameter) (c : Config) : Thrown Config :=
  if String.eqb (get_name parameter) "is_robot_stuck" then
    match as_bool parameter with
    | Value b => Value (mkConfig b (parent_frame_id c) (robot_frame_id c))
    | ParameterTypeException => ParameterTypeException
    end
  else if String.eqb (get_name parameter) "parent_frame_id" then
    match as_string parameter with
    | Value str => Value (mkConfig (is_robot_stuck c) str (robot_frame_id c))
    | ParameterTypeException => ParameterTypeException
    end
  else if String.eqb (get_name parameter) "robot_frame_id" then
    match as_string parameter with
    | Value str => Value (mkConfig (is_robot_stuck c) (parent_frame_id c) str)
    | ParameterTypeException => ParameterTypeException
    end
  else Value c.

(** The loop: an exception leaves it with [config_] as the parameters
    before have set it. *)
Fixpoint set_parameters (parameters : list rclcpp_Parameter) (c : Config)
  : Thrown unit * Config :=
  match parameters with
  | [] => (Value tt, c)
  | parameter :: rest =>
      match set_one_parameter parameter c with
      | Value c' => set_parameters rest c'
      | ParameterTypeException => (ParameterTypeException, c)
      end
  end.

Definition setParametersCallback (parameters : list rclcpp_Parameter) (r : Simulator)
  : Thrown SetParametersResult * Simulator :=
  let '(done, c) := set_parameters parameters (config_ r) in
  (match done with
   | Value _ => Value (mkSetParametersResult true "success")
   | ParameterTypeException => ParameterTypeException
   end,
   mkSimulator c (trf_parent_robot_ r) (current_velocity_ r) (outputs r)).

(** The constructor, from the values that the three [declare_parameter]
    calls give for [config_] and the two readings of the clock (its own,
    and the one of the first pose update). *)
Definition construct (declared : Config) (t_stamp t_first : Time) : Simulator :=
  continuouslyUpdateRobotPose t_first
    (mkSimulator declared
       (mkTransformStamped (mkHeader t_stamp (parent_frame_id declared))
          (robot_frame_id declared) unset_transform)
       unset_twist []).

(** What happens to a simulator after its construction: the timer fires,
    a velocity message or a request arrives, parameters are set. *)
Inductive Op : Type :=
  | OpTimer (t_now : Time)
  | OpVelocity (vel : TwistStamped) (t_now : Time)
  | OpSetState (request : Request) (response : Response) (t_first t_second : Time)
  | OpSetParameters (parameters : list rclcpp_Parameter).

Definition exec_op (op : Op) (r : Simulator) : Simulator :=
  match op with
  | OpTimer t_now => continuouslyUpdateRobotPose t_now r
  | OpVelocity vel t_now => velocityCallback vel t_now r
  | OpSetState request response t_first t_second =>
      (setStateCallback request response t_first t_second r).2
  | OpSetParameters parameters => (setParametersCallback parameters r).2
  end.

Definition exec_ops (ops : list Op) (r : Simulator) : Simulator :=
  foldl (fun r op => exec_op op r) r ops.

(** ** Reading parameters and outputs *)

(** The parameters that [setParametersCallback] looks at, and whether the
    value of one has the type the callback asks for. *)
Definition is_config_name (name : string) : bool :=
  String.eqb name "is_robot_stuck" || String.eqb name "parent_frame_id"
  || String.eqb name "robot_frame_id".

Definition well_typed (p : rclcpp_Parameter) : bool :=
  if String.eqb (get_name p) "is_robot_stuck" then
    match get_value p with PARAMETER_BOOL _ => true | _ => false end
  else if String.eqb (get_name p) "parent_frame_id"
          || String.eqb (get_name p) "robot_frame_id" then
    match get_value p with PARAMETER_STRING _ => true | _ => false end
  else true.

(** The value of the last parameter of the list with the given name. *)
Definition last_value (name : string) (parameters : list rclcpp_Parameter)
  : option ParameterValue :=
  last (get_value <$> List.filter (fun p => String.eqb (get_name p) name) parameters).

Definition bool_or (b : bool) (v : option ParameterValue) : bool :=
  match v with Some (PARAMETER_BOOL b') => b' | _ => b end.

Definition string_or (str : string) (v : option ParameterValue) : string :=
  match v with Some (PARAMETER_STRING str') => str' | _ => str end.

(** [config_] with each field replaced by the last value the list has
    for it. *)
Definition config_after (parameters : list rclcpp_Parameter) (c : Config) : Config :=
  mkConfig
    (bool_or (is_robot_stuck c) (last_value "is_robot_stuck" parameters))
    (string_or (parent_frame_id c) (last_value "parent_frame_id" parameters))
    (string_or (robot_frame_id c) (last_value "robot_frame_id" parameters)).

Definition sent_transforms (out : list Output) : list TransformStamped :=
  omap (fun o => match o with SentTransform trf => Some trf | _ => None end) out.

Definition published_odometry (out : list Output) : list Odometry :=
  omap (fun o => match o with PublishedOdometry odom => Some odom | _ => None end) out.

Definition created_timers (out : list Output) : list nat :=
  omap (fun o => match o with CreatedWallTimer ms => Some ms | _ => None end) out.

Definition stamps_of_transforms (out : list Output) : list Time :=
  (fun trf => stamp (header trf)) <$> sent_transforms out.

Definition stamps_of_odometry (out : list Output) : list Time :=
  (fun odom => stamp (odom_header odom)) <$> published_odometry out.

(** Outputs in which transforms, odometry messages and timers come in
    threes, and every transform has the given frame ids. *)
Definition in_threes (parent child : string) (out : list Output) : Prop :=
  stamps_of_transforms out = stamps_of_odometry out /\
  created_timers out = replicate (length (sent_transforms out)) 10 /\
  Forall (fun trf => frame_id (header trf) = parent /\ child_frame_id trf = child)
    (sent_transforms out).

(** Two simulators with the same members, whatever they have put out. *)
Definition same_members (r r' : Simulator) : Prop :=
  config_ r = config_ r' /\
  trf_parent_robot_ r = trf_parent_robot_ r' /\
  current_velocity_ r = current_velocity_ r'.

Definition is_motion (op : Op) : bool :=
  match op with
  | OpTimer _ | OpVelocity _ _ => true
  | _ => false
  end.

End Model.

(** A robot on a line with whole numbers for everything: a transform is a
    position, and composing transforms adds positions. *)
Definition line : Tf2 := {|
  double := Z;
  Time := Z;
  zero := 0%Z;
  multiply := Z.mul;
  seconds_between := fun a b => (a - b)%Z;
  TransformMsg := Z;
  PoseMsg := Z;
  unset_transform := 0%Z;
  unset_pose := 0%Z;
  Quaternion := unit;
  Vector3 := Z;
  Transform := Z;
  setRPY := fun _ _ _ => tt;
  Vector3_new := fun x _ _ => x;
  Transform_new := fun _ v => v;
  Transform_mul := Z.add;
  fromMsg := fun m => m;
  toMsg := fun t => t;
  toMsg_pose := fun t => t
|}.

(** A robot that is stuck and one that moves, both constructed at time 0
    with a first update at time 1; a velocity command in the robot frame
    and one in another frame; a state request in the parent frame. *)
Definition parked : Simulator (tf2 := line) :=
  construct (tf2 := line) (mkConfig true "odom" "base_link") 0%Z 1%Z.

Definition cruising : Simulator (tf2 := line) :=
  construct (tf2 := line) (mkConfig false "odom" "base_link") 0%Z 1%Z.

Definition forward : TwistStamped (tf2 := line) :=
  mkTwistStamped (tf2 := line) (mkHeader (tf2 := line) 2%Z "base_link")
    (mkTwist (tf2 := line) 3%Z 0%Z 0%Z 0%Z 0%Z 0%Z).

Definition from_camera : TwistStamped (tf2 := line) :=
  mkTwistStamped (tf2 := line) (mkHeader (tf2 := line) 2%Z "camera")
    (mkTwist (tf2 := line) 3%Z 0%Z 0%Z 0%Z 0%Z 0%Z).

Definition jump_to_seven : Request (tf2 := line) :=
  mkRequest (tf2 := line)
    (mkTransformStamped (tf2 := line) (mkHeader (tf2 := line) 4%Z "odom")
       "base_link" 7%Z)
    false from_camera.

Definition jump_in_map : Request (tf2 := line) :=
  mkRequest (tf2 := line)
    (mkTransformStamped (tf2 := line) (mkHeader (tf2 := line) 4%Z "map")
       "base_link" 7%Z)
    false from_camera.

(** A drive: a command, a tick of the timer, a command in the wrong
    frame, and a tick. *)
Definition drive : list (Op (tf2 := line)) :=
  [OpVelocity (tf2 := line) forward 2%Z; OpTimer (tf2 := line) 4%Z;
   OpVelocity (tf2 := line) from_camera 5%Z; OpTimer (tf2 := line) 6%Z].

Definition renaming : list rclcpp_Parameter :=
  [mk_rclcpp_Parameter "is_robot_stuck" (PARAMETER_BOOL true);
   mk_rclcpp_Parameter "use_sim_time" (PARAMETER_BOOL true);
   mk_rclcpp_Parameter "parent_frame_id" (PARAMETER_STRING "map");
   mk_rclcpp_Parameter "is_robot_stuck" (PARAMETER_BOOL false)].

End RobotSimulator.

(** ** One pass of the loop body *)

Section LoadOne.
Context {P W : Type}.
Implicit Types (s : State P W) (m : Manager P W) (name type : string).

Lemma load_one_registered s name :
  std_map_found name (plugins_ (self s)) = true ->
  load_one name s =
    (Some false,
     mkState (self s) (node s) (world s) (history s ++ [ErrorAlreadyLoaded name])).
Proof.
  intros Hfound. unfold load_one, bind, this. rewrite Hfound. reflexivity.
Qed.

Lemma load_one_factory_miss s name w1 :
  std_map_found name (plugins_ (self s)) = false ->
  loadPlugin_ (self s) (type_of_name s name) (world s) = (None, w1) ->
  load_one name s =
    (None,
     mkState (self s) (node s) w1
       (history s ++ [CalledLoadPlugin (type_of_name s name);
                      ErrorCouldNotLoad name (type_of_name s name)])).
Proof.
  intros Hfound Hload. unfold load_one, bind, this. rewrite Hfound.
  unfold get_parameter_string, call_loadPlugin. fold (type_of_name s name).
  rewrite Hload. cbn. by rewrite <- app_assoc.
Qed.

Lemma load_one_init_failure s name p w1 w2 :
  std_map_found name (plugins_ (self s)) = false ->
  loadPlugin_ (self s) (type_of_name s name) (world s) = (Some p, w1) ->
  initPlugin_ (self s) name (Some p) w1 = (false, w2) ->
  load_one name s =
    (None,
     mkState (self s) (node s) w2
       (history s ++ [CalledLoadPlugin (type_of_name s name);
                      CalledInitPlugin name (Some p);
                      ErrorCouldNotLoad name (type_of_name s name)])).
Proof.
  intros Hfound Hload Hinit. unfold load_one, bind, this. rewrite Hfound.
  unfold get_parameter_string, call_loadPlugin. fold (type_of_name s name).
  rewrite Hload. cbn. unfold call_initPlugin. cbn. rewrite Hinit. cbn.
  by rewrite <- !app_assoc.
Qed.

Lemma load_one_admitted s name p w1 w2 :
  std_map_found name (plugins_ (self s)) = false ->
  loadPlugin_ (self s) (type_of_name s name) (world s) = (Some p, w1) ->
  initPlugin_ (self s) name (Some p) w1 = (true, w2) ->
  load_one name s =
    (None,
     mkState (admit_plugin name (type_of_name s name) (Some p) (self s)) (node s) w2
       (history s ++ [CalledLoadPlugin (type_of_name s name);
                      CalledInitPlugin name (Some p);
                      InfoLoaded (type_of_name s name) name])).
Proof.
  intros Hfound Hload Hinit. unfold load_one, bind, this. rewrite Hfound.
  unfold get_parameter_string, call_loadPlugin. fold (type_of_name s name).
  rewrite Hload. cbn. unfold call_initPlugin. cbn. rewrite Hinit. cbn.
  by rewrite <- !app_assoc.
Qed.

Lemma load_one_cases s name :
  load_one_case s name (load_one name s).1 (load_one name s).2.
Proof.
  destruct (std_map_found name (plugins_ (self s))) eqn:Hfound.
  - rewrite load_one_registered by done. by constructor.
  - destruct (loadPlugin_ (self s) (type_of_name s name) (world s))
      as [[p|] w1] eqn:Hload.
    + destruct (initPlugin_ (self s) name (Some p) w1) as [[] w2] eqn:Hinit.
      * erewrite load_one_admitted by done. by econstructor.
      * erewrite load_one_init_failure by done. by econstructor.
    + erewrite load_one_factory_miss by done. by econstructor.
Qed.

End LoadOne.

(** ** What a call leaves alone, and what it only extends *)

Section Loop.
Context {P W : Type}.
Implicit Types (s : State P W) (m : Manager P W) (name type : string).

Lemma grows_refl s : grows s s.
Proof. by split. Qed.

Lemma grows_trans s1 s2 s3 : grows s1 s2 -> grows s2 s3 -> grows s1 s3.
Proof.
  intros [] []. split; try congruence; by etrans.
Qed.

Lemma std_map_found_lookup {V} k (m : gmap string V) :
  std_map_found k m = true <-> is_Some (m !! k).
Proof.
  unfold std_map_found.
  destruct (m !! k); split; intros H; try done; by destruct H.
Qed.

Lemma std_map_found_false {V} k (m : gmap string V) :
  std_map_found k m = false <-> m !! k = None.
Proof. unfold std_map_found. by destruct (m !! k). Qed.

Lemma std_map_insert_fresh {V} k (v : V) (m : gmap string V) :
  m !! k = None -> std_map_insert k v m = <[k := v]> m.
Proof. intros H. unfold std_map_insert. by rewrite H. Qed.

Lemma std_map_insert_subseteq {V} k (v : V) (m : gmap string V) :
  m ⊆ std_map_insert k v m.
Proof.
  unfold std_map_insert. destruct (m !! k) eqn:E; [done|].
  by apply insert_subseteq.
Qed.

Lemma hasPlugin_lookup name m :
  hasPlugin name m = true <-> is_Some (plugins_ m !! name).
Proof.
  unfold hasPlugin, std_map_count.
  destruct (plugins_ m !! name); cbn; split; intros H; try done;
    by destruct H.
Qed.

Lemma hasPlugin_false name m :
  hasPlugin name m = false <-> plugins_ m !! name = None.
Proof. unfold hasPlugin, std_map_count. by destruct (plugins_ m !! name). Qed.

Lemma hasPlugin_found name m :
  hasPlugin name m = std_map_found name (plugins_ m).
Proof.
  unfold hasPlugin, std_map_count, std_map_found.
  by destruct (plugins_ m !! name).
Qed.

Lemma load_one_grows s name : grows s (load_one name s).2.
Proof.
  destruct (load_one_cases s name); split; cbn;
    try done; try (by apply prefix_app_r);
    try apply std_map_insert_subseteq.
Qed.

Lemma load_loop_cons name rest s :
  load_loop (name :: rest) s =
    match (load_one name s).1 with
    | Some b => (Some b, (load_one name s).2)
    | None => load_loop rest (load_one name s).2
    end.
Proof.
  change (load_loop (name :: rest) s) with
    (bind (load_one name)
       (fun r => match r with
                 | Some b => ret (Some b)
                 | None => load_loop rest
                 end) s).
  unfold bind. by destruct (load_one name s) as [[b|] s1].
Qed.

(** The loop over [pre ++ post] is the loop over [pre], followed, unless
    it returned, by the loop over [post]. *)
Lemma load_loop_app pre post s :
  load_loop (pre ++ post) s =
    match (load_loop pre s).1 with
    | Some b => (Some b, (load_loop pre s).2)
    | None => load_loop post (load_loop pre s).2
    end.
Proof.
  revert s. induction pre as [|name pre IH]; intros s; [done|].
  rewrite <- app_comm_cons, !load_loop_cons.
  destruct (load_one name s).1; [done|]. apply IH.
Qed.

Lemma load_loop_grows l s : grows s (load_loop l s).2.
Proof.
  revert s. induction l as [|name l IH]; intros s; [apply grows_refl|].
  rewrite load_loop_cons. destruct (load_one name s).1 eqn:E; cbn.
  - apply load_one_grows.
  - eapply grows_trans; [apply load_one_grows | apply IH].
Qed.

(** The only value the loop ever returns early is [false]. *)
Lemma load_loop_returns_false l s b : (load_loop l s).1 = Some b -> b = false.
Proof.
  revert s. induction l as [|name l IH]; intros s; [done|].
  rewrite load_loop_cons.
  destruct (load_one_cases s name); cbn; try apply IH. congruence.
Qed.

Lemma loadPlugins_unfold s :
  loadPlugins s =
    if vector_empty (configured_names s) then
      (false, mkState (self s) (node s) (world s)
                (history s ++ [WarnNoPluginsConfigured (param_name_ (self s))]))
    else
      match (load_loop (configured_names s) s).1 with
      | Some b => (b, (load_loop (configured_names s) s).2)
      | None =>
          (negb (std_map_empty (plugins_ (self (load_loop (configured_names s) s).2))),
           (load_loop (configured_names s) s).2)
      end.
Proof.
  unfold loadPlugins, bind, this, get_parameter_strings.
  fold (configured_names s).
  destruct (vector_empty (configured_names s)); [done|].
  destruct (load_loop (configured_names s) s) as [[b|] s1]; cbn; [done|].
  by destruct (std_map_empty _).
Qed.

Lemma loadPlugins_grows s : grows s (loadPlugins s).2.
Proof.
  rewrite loadPlugins_unfold.
  destruct (vector_empty _).
  - split; cbn; try done. by apply prefix_app_r.
  - destruct (load_loop _ _).1 eqn:E; cbn; apply load_loop_grows.
Qed.

Lemma grows_hasPlugin s s' name :
  grows s s' -> hasPlugin name (self s) = true -> hasPlugin name (self s') = true.
Proof.
  intros Hg. rewrite !hasPlugin_lookup. intros [p Hp].
  exists p. eapply lookup_weaken; [done | apply Hg].
Qed.

(** A name is registered after the loop only if it was before, or is in
    the list. *)
Lemma load_one_new_name s name k :
  hasPlugin k (self (load_one name s).2) = true ->
  hasPlugin k (self s) = true \/ k = name.
Proof.
  destruct (load_one_cases s name); cbn; auto.
  rewrite !hasPlugin_lookup. cbn.
  rewrite std_map_insert_fresh by by apply std_map_found_false.
  destruct (decide (k = name)) as [->|Hne]; [by right|].
  rewrite lookup_insert_ne by done. by left.
Qed.

Lemma load_loop_new_name l s k :
  hasPlugin k (self (load_loop l s).2) = true ->
  hasPlugin k (self s) = true \/ k ∈ l.
Proof.
  revert s. induction l as [|name l IH]; intros s; [by left|].
  rewrite load_loop_cons. intros H.
  assert (hasPlugin k (self (load_one name s).2) = true \/ k ∈ l) as [H1|H1].
  { destruct (load_one name s).1; [by left | by apply IH]. }
  - destruct (load_one_new_name _ _ _ H1) as [? | ->]; [by left|].
    right. by left.
  - right. by right.
Qed.

End Loop.

(** ** The registry invariant *)

Section Invariant.
Context {P W : Type}.
Implicit Types (s : State P W) (m : Manager P W) (name type : string).

Lemma admitted_names_app (h evs : list (Event P)) :
  admitted_names (h ++ evs) = foldl admitted_step (admitted_names h) evs.
Proof. unfold admitted_names. apply foldl_app. Qed.

Lemma inert_admitted (evs : list (Event P)) acc :
  forallb is_inert evs = true -> foldl admitted_step acc evs = acc.
Proof.
  induction evs as [|e evs IH]; [done|]. cbn.
  intros [He Hevs]%andb_prop. rewrite <- (IH Hevs) at 2.
  by destruct e.
Qed.

Lemma inert_no_clear (evs : list (Event P)) :
  forallb is_inert evs = true -> CalledClearPlugins ∉ evs.
Proof.
  induction evs as [|e evs IH]; cbn.
  - intros _ H. inversion H.
  - intros [He Hevs]%andb_prop [<-|H]%elem_of_cons; [done|]. by apply IH.
Qed.

(** Inert events appended to the history keep the invariant as long as
    the manager is the same. *)
Lemma consistent_history s evs :
  consistent s ->
  forallb is_inert evs = true ->
  forall n w,
    consistent (mkState (self s) n w (history s ++ evs)).
Proof.
  intros [] Hevs n w. split; cbn; try done.
  - by rewrite admitted_names_app, inert_admitted.
  - intros name type Hty.
    destruct (cons_admission0 name type Hty) as (p & h1 & h2 & Hp & Hh & Hc).
    exists p, h1, (h2 ++ evs). split_and!; [done | |].
    + rewrite Hh. by rewrite <- !app_assoc.
    + apply not_elem_of_app. split; [done | by apply inert_no_clear].
Qed.

Lemma consistent_construct param_name loadPlugin initPlugin node_handle (w : W) :
  consistent (construct (P := P) param_name loadPlugin initPlugin node_handle w).
Proof.
  unfold construct. destruct (declare_parameter_strings _ _ _) as [v n].
  split; cbn.
  - by rewrite !dom_empty_L.
  - by rewrite dom_empty_L.
  - constructor.
  - intros name. by rewrite lookup_empty.
  - done.
  - intros name type. by rewrite lookup_empty.
Qed.

Lemma consistent_load_one s name :
  consistent s -> consistent (load_one name s).2.
Proof.
  intros Hs. destruct (load_one_cases s name) as [Hf|w1 Hf Hl|p w1 w2 Hf Hl Hi|p w1 w2 Hf Hl Hi];
    cbn; try (by apply consistent_history).
  destruct Hs as [Hty Hnm Hnd Hnn Hord Hadm].
  apply std_map_found_false in Hf.
  assert (plugins_type_ (self s) !! name = None) as Hfty.
  { apply not_elem_of_dom. rewrite Hty. by apply not_elem_of_dom. }
  assert (name ∉ names_ (self s)) as Hnin.
  { intros Hin. apply (not_elem_of_dom (plugins_ (self s)) name); [done|].
    rewrite <- Hnm. by apply elem_of_list_to_set. }
  split; cbn; unfold push_back;
    rewrite ?(std_map_insert_fresh _ _ (plugins_ (self s))) by done;
    rewrite ?(std_map_insert_fresh _ _ (plugins_type_ (self s))) by done.
  - by rewrite !dom_insert_L, Hty.
  - rewrite list_to_set_app_L, dom_insert_L, Hnm. cbn.
    rewrite (right_id_L ∅ (∪)). apply (comm_L (∪)).
  - apply NoDup_app. split_and!; [done | | apply NoDup_singleton].
    intros x Hx ->%list_elem_of_singleton. done.
  - intros k. destruct (decide (k = name)) as [->|Hne].
    + rewrite lookup_insert_eq. congruence.
    + rewrite lookup_insert_ne by done. apply Hnn.
  - rewrite admitted_names_app. cbn. by rewrite Hord.
  - intros k ty. destruct (decide (k = name)) as [->|Hne].
    + rewrite !lookup_insert_eq. intros [= <-].
      exists p, (history s), []. split_and!; [done | done |].
      intros H. inversion H.
    + rewrite !lookup_insert_ne by done. intros Hk.
      destruct (Hadm k ty Hk) as (q & h1 & h2 & Hq & Hh & Hc).
      exists q, h1, (h2 ++ [CalledLoadPlugin (type_of_name s name);
                             CalledInitPlugin name (Some p);
                             InfoLoaded (type_of_name s name) name]).
      split_and!; [done | |].
      * rewrite Hh. by rewrite <- !app_assoc.
      * apply not_elem_of_app. split; [done|].
        rewrite !not_elem_of_cons. split_and!; try done.
        intros H. inversion H.
Qed.

Lemma consistent_load_loop l s :
  consistent s -> consistent (load_loop l s).2.
Proof.
  revert s. induction l as [|name l IH]; intros s Hs; [done|].
  rewrite load_loop_cons. pose proof (consistent_load_one s name Hs).
  destruct (load_one name s).1; cbn; [done | by apply IH].
Qed.

Lemma consistent_loadPlugins s :
  consistent s -> consistent (loadPlugins s).2.
Proof.
  intros Hs. rewrite loadPlugins_unfold. destruct (vector_empty _).
  - by apply consistent_history.
  - destruct (load_loop _ _).1 eqn:E; cbn; by apply consistent_load_loop.
Qed.

Lemma getPlugin_unfold name s :
  getPlugin name s =
    match plugins_ (self s) !! name with
    | Some plugin_ptr =>
        (plugin_ptr, mkState (self s) (node s) (world s) (history s ++ [DebugFound name]))
    | None =>
        (None, mkState (self s) (node s) (world s) (history s ++ [WarnNotYetLoaded name]))
    end.
Proof.
  unfold getPlugin, bind, this. by destruct (plugins_ (self s) !! name).
Qed.

Lemma consistent_exec_op (op : Op W) s :
  consistent s -> consistent (exec_op op s).
Proof.
  intros Hs. destruct op as [|name| |n w]; unfold exec_op.
  - by apply consistent_loadPlugins.
  - rewrite getPlugin_unfold.
    destruct (plugins_ (self s) !! name); by apply consistent_history.
  - split; cbn.
    + by rewrite !dom_empty_L.
    + by rewrite dom_empty_L.
    + constructor.
    + intros name. by rewrite lookup_empty.
    + by rewrite admitted_names_app.
    + intros name type. by rewrite lookup_empty.
  - rewrite <- (app_nil_r (history s)). by apply consistent_history.
Qed.

Lemma consistent_exec_ops (ops : list (Op W)) s :
  consistent s -> consistent (exec_ops ops s).
Proof.
  revert s. induction ops as [|op ops IH]; intros s Hs; [done|].
  cbn. apply IH. by apply consistent_exec_op.
Qed.

Lemma reachable_consistent s : reachable s -> consistent s.
Proof.
  intros (pn & lp & ip & nh & w & ops & ->).
  apply consistent_exec_ops, consistent_construct.
Qed.

End Invariant.

(** ** Properties of the member functions *)

Section Claims.
Context {P W : Type}.
Implicit Types (s : State P W) (m : Manager P W) (name type : string).

(** C3: when the configured name list is empty, [loadPlugins()] returns
    [false] at once: the manager (its three views included), the node and
    the world of the callbacks are what they were, and the only new event is
    the warning, so neither callback has been called. *)
Theorem loadPlugins_empty_list s :
  configured_names s = [] ->
  (loadPlugins s).1 = false /\
  self (loadPlugins s).2 = self s /\
  plugins_ (self (loadPlugins s).2) = plugins_ (self s) /\
  plugins_type_ (self (loadPlugins s).2) = plugins_type_ (self s) /\
  names_ (self (loadPlugins s).2) = names_ (self s) /\
  node (loadPlugins s).2 = node s /\
  world (loadPlugins s).2 = world s /\
  history (loadPlugins s).2 =
    history s ++ [WarnNoPluginsConfigured (param_name_ (self s))] /\
  List.filter is_callback_call (history (loadPlugins s).2) =
    List.filter is_callback_call (history s).
Proof.
  intros Hnames. rewrite loadPlugins_unfold, Hnames. cbn.
  split_and!; try done.
  rewrite List.filter_app. cbn. by rewrite app_nil_r.
Qed.


(** C2, as amended: let [name] be a configured name whose turn comes (the
    loop went through the names [pre] before it without returning).  If
    [name] is registered at that moment, [loadPlugins()] logs the error and
    returns [false] there: the final state is the one the loop had reached,
    plus that message, so nothing after [name] is attempted and every name
    registered so far stays registered.  If [name] is not registered at that
    moment, the loop does not return at [name], whatever the callbacks
    answer. *)
Theorem loadPlugins_duplicate_abort s pre name post s1 :
  configured_names s = pre ++ name :: post ->
  load_loop pre s = (None, s1) ->
  (hasPlugin name (self s1) = true ->
     loadPlugins s =
       (false, mkState (self s1) (node s1) (world s1)
                 (history s1 ++ [ErrorAlreadyLoaded name])) /\
     (forall k, hasPlugin k (self s1) = true ->
                hasPlugin k (self (loadPlugins s).2) = true) /\
     (forall k, hasPlugin k (self s) = true ->
                hasPlugin k (self (loadPlugins s).2) = true)) /\
  (hasPlugin name (self s1) = false ->
     (load_loop (pre ++ [name]) s).1 = None).
Proof.
  intros Hnames Hpre. split.
  - intros Hreg.
    assert (loadPlugins s =
      (false, mkState (self s1) (node s1) (world s1)
                (history s1 ++ [ErrorAlreadyLoaded name]))) as Hcall.
    { rewrite loadPlugins_unfold, Hnames.
      destruct (pre ++ name :: post) eqn:E; [by destruct pre|].
      cbn [vector_empty]. rewrite <- E.
      rewrite load_loop_app, Hpre. cbn [fst snd].
      rewrite load_loop_cons, load_one_registered
        by by rewrite <- hasPlugin_found. done. }
    split_and!; [done | by rewrite Hcall |].
    intros k Hk. rewrite Hcall. cbn.
    assert (grows s s1) as Hg.
    { replace s1 with (load_loop pre s).2 by by rewrite Hpre.
      apply load_loop_grows. }
    by eapply grows_hasPlugin.
  - intros Hreg. rewrite load_loop_app, Hpre. cbn [fst snd].
    rewrite load_loop_cons. rewrite hasPlugin_found in Hreg.
    destruct (load_one_cases s1 name); try done. congruence.
Qed.

Lemma loadPlugins_state s :
  configured_names s <> [] ->
  (loadPlugins s).2 = (load_loop (configured_names s) s).2.
Proof.
  intros Hne. rewrite loadPlugins_unfold.
  destruct (configured_names s) eqn:E; [done|]. cbn [vector_empty].
  by destruct (load_loop _ _).1.
Qed.

Lemma load_loop_reaches s pre name post s1 :
  load_loop pre s = (None, s1) ->
  load_loop (pre ++ name :: post) s =
    match (load_one name s1).1 with
    | Some b => (Some b, (load_one name s1).2)
    | None => load_loop post (load_one name s1).2
    end.
Proof.
  intros Hpre. rewrite load_loop_app, Hpre. cbn [fst snd].
  apply load_loop_cons.
Qed.

(** C4: let [name] be a configured name whose turn comes while it is not
    registered, and let the factory yield no instance for its type, or the
    initializer refuse the instance.  Then the loop body does not return:
    it leaves the manager, with its three views, as it was, so [name] is
    still not registered, and the loop goes on with the names after it from
    that state.  If [name] does not occur again in the list, it is not
    registered at the end of the call. *)
Theorem load_failure_skips_name s pre name post s1 :
  configured_names s = pre ++ name :: post ->
  load_loop pre s = (None, s1) ->
  hasPlugin name (self s1) = false ->
  (loadPlugin_ (self s1) (type_of_name s1 name) (world s1)).1 = None \/
  (exists p w1,
     loadPlugin_ (self s1) (type_of_name s1 name) (world s1) = (Some p, w1) /\
     (initPlugin_ (self s1) name (Some p) w1).1 = false) ->
  exists s2,
    load_one name s1 = (None, s2) /\
    self s2 = self s1 /\
    plugins_ (self s2) !! name = None /\
    plugins_type_ (self s2) = plugins_type_ (self s1) /\
    names_ (self s2) = names_ (self s1) /\
    hasPlugin name (self s2) = false /\
    load_loop (configured_names s) s = load_loop post s2 /\
    (loadPlugins s).2 = (load_loop post s2).2 /\
    (name ∉ post -> hasPlugin name (self (loadPlugins s).2) = false).
Proof.
  intros Hnames Hpre Hreg Hfail.
  assert (exists s2, load_one name s1 = (None, s2) /\ self s2 = self s1)
    as (s2 & Hone & Hself).
  { rewrite hasPlugin_found in Hreg.
    destruct Hfail as [Hmiss | (p & w1 & Hload & Hinit)].
    - destruct (loadPlugin_ _ _ _) as [o w1] eqn:Hload. cbn in Hmiss. subst o.
      eexists. split; [by apply load_one_factory_miss | done].
    - destruct (initPlugin_ _ _ _ _) as [b w2] eqn:Hi. cbn in Hinit. subst b.
      eexists. split; [by eapply load_one_init_failure | done]. }
  assert (load_loop (configured_names s) s = load_loop post s2) as Hloop.
  { rewrite Hnames. erewrite load_loop_reaches by done. by rewrite Hone. }
  assert (configured_names s <> []) as Hne.
  { rewrite Hnames. by destruct pre. }
  exists s2. rewrite Hself. split_and!; try done.
  - by apply hasPlugin_false.
  - by rewrite loadPlugins_state, Hloop.
  - intros Hnin. apply not_true_is_false. intros Hafter.
    rewrite loadPlugins_state, Hloop in Hafter by done.
    apply load_loop_new_name in Hafter as [Hs2|Hin]; [|done].
    rewrite Hself in Hs2. congruence.
Qed.

(** The events of one pass of the loop body for a name that is not
    registered: the factory call, then either the error, or the
    initializer call and the message that tells its answer. *)
Lemma load_one_unregistered_history s name :
  hasPlugin name (self s) = false ->
  (load_one name s).1 = None /\
  history (load_one name s).2 =
    history s ++
    CalledLoadPlugin (type_of_name s name) ::
    match (loadPlugin_ (self s) (type_of_name s name) (world s)).1 with
    | None => [ErrorCouldNotLoad name (type_of_name s name)]
    | Some p =>
        [CalledInitPlugin name (Some p);
         if (initPlugin_ (self s) name (Some p)
               (loadPlugin_ (self s) (type_of_name s name) (world s)).2).1
         then InfoLoaded (type_of_name s name) name
         else ErrorCouldNotLoad name (type_of_name s name)]
    end.
Proof.
  rewrite hasPlugin_found. intros Hreg.
  destruct (load_one_cases s name) as [Hf|w1 Hf Hl|p w1 w2 Hf Hl Hi|p w1 w2 Hf Hl Hi];
    [congruence | | |]; rewrite Hl; cbn [fst snd]; rewrite ?Hi; done.
Qed.

(** The registry after one pass of the loop body for a name that is not
    registered: the name is in all three views when the factory yields an
    instance and the initializer accepts it, and the manager is untouched
    otherwise. *)
Lemma load_one_unregistered_registry s name :
  hasPlugin name (self s) = false ->
  match (loadPlugin_ (self s) (type_of_name s name) (world s)).1 with
  | Some p =>
      if (initPlugin_ (self s) name (Some p)
            (loadPlugin_ (self s) (type_of_name s name) (world s)).2).1
      then hasPlugin name (self (load_one name s).2) = true /\
           plugins_ (self (load_one name s).2) !! name = Some (Some p) /\
           names_ (self (load_one name s).2) = names_ (self s) ++ [name] /\
           plugins_type_ (self (load_one name s).2) =
             std_map_insert name (type_of_name s name) (plugins_type_ (self s)) /\
           (consistent s ->
            getType name (self (load_one name s).2) =
              Returns (type_of_name s name))
      else self (load_one name s).2 = self s
  | None => self (load_one name s).2 = self s
  end.
Proof.
  rewrite hasPlugin_found. intros Hreg.
  destruct (load_one_cases s name) as [Hf|w1 Hf Hl|p w1 w2 Hf Hl Hi|p w1 w2 Hf Hl Hi];
    [congruence | | |]; rewrite Hl; cbn [fst snd]; rewrite ?Hi;
    cbn [fst snd self]; try done.
  apply std_map_found_false in Hf.
  rewrite hasPlugin_lookup. cbn [admit_plugin plugins_ plugins_type_ names_].
  rewrite (std_map_insert_fresh _ _ (plugins_ (self s))) by done.
  rewrite lookup_insert_eq. unfold push_back.
  split_and!; [by eexists | apply lookup_insert_eq | done | done |].
  intros Hcons. unfold getType. cbn [admit_plugin plugins_type_].
  rewrite std_map_insert_fresh; [by rewrite lookup_insert_eq|].
  apply not_elem_of_dom. rewrite (cons_types _ Hcons).
  by apply not_elem_of_dom.
Qed.

(** C9: the test that stops the loop looks at the registry only.  Let
    [name] occur in the list a second time, after occurrences in [pre]
    that left it unregistered.  Then its turn does not end the call and is
    an ordinary one: the factory is called again with its type, the
    initializer is called again if the factory yields an instance, no
    duplicate error is logged, and the loop goes on with the names after
    it.  When the factory yields an instance and the initializer accepts
    it, [name] is registered by this pass: it is a key of the instance map
    with that instance, it is appended to the name list, and its type is
    recorded (in a reachable state [getType] gives it back); otherwise the
    manager is left as it was. *)
Theorem repeated_name_reprocessed s pre name post s1 :
  configured_names s = pre ++ name :: post ->
  name ∈ pre ->
  load_loop pre s = (None, s1) ->
  hasPlugin name (self s1) = false ->
  exists s2,
    load_one name s1 = (None, s2) /\
    load_loop (configured_names s) s = load_loop post s2 /\
    (loadPlugins s).2 = (load_loop post s2).2 /\
    history s2 =
      history s1 ++
      CalledLoadPlugin (type_of_name s1 name) ::
      match (loadPlugin_ (self s1) (type_of_name s1 name) (world s1)).1 with
      | None => [ErrorCouldNotLoad name (type_of_name s1 name)]
      | Some p =>
          [CalledInitPlugin name (Some p);
           if (initPlugin_ (self s1) name (Some p)
                 (loadPlugin_ (self s1) (type_of_name s1 name) (world s1)).2).1
           then InfoLoaded (type_of_name s1 name) name
           else ErrorCouldNotLoad name (type_of_name s1 name)]
      end /\
    List.filter is_duplicate_error (history s2) =
      List.filter is_duplicate_error (history s1) /\
    match (loadPlugin_ (self s1) (type_of_name s1 name) (world s1)).1 with
    | Some p =>
        if (initPlugin_ (self s1) name (Some p)
              (loadPlugin_ (self s1) (type_of_name s1 name) (world s1)).2).1
        then hasPlugin name (self s2) = true /\
             plugins_ (self s2) !! name = Some (Some p) /\
             getLoadedNames (self s2) = getLoadedNames (self s1) ++ [name] /\
             plugins_type_ (self s2) =
               std_map_insert name (type_of_name s1 name) (plugins_type_ (self s1)) /\
             (reachable s ->
              getType name (self s2) = Returns (type_of_name s1 name))
        else self s2 = self s1
    | None => self s2 = self s1
    end.
Proof.
  intros Hnames _ Hpre Hreg.
  destruct (load_one_unregistered_history s1 name Hreg) as [Hret Hhist].
  pose proof (load_one_unregistered_registry s1 name Hreg) as Hregistry.
  assert (load_loop (configured_names s) s = load_loop post (load_one name s1).2)
    as Hloop.
  { rewrite Hnames. erewrite load_loop_reaches by done. by rewrite Hret. }
  exists (load_one name s1).2. split_and!.
  - rewrite <- Hret. by destruct (load_one name s1).
  - done.
  - rewrite loadPlugins_state, Hloop; [done|].
    rewrite Hnames. by destruct pre.
  - done.
  - rewrite Hhist, List.filter_app.
    rewrite <- (app_nil_r (List.filter _ (history s1))) at 2. f_equal.
    destruct (loadPlugin_ _ _ _).1; cbn; [|done].
    by destruct (initPlugin_ _ _ _ _).1.
  - unfold getLoadedNames.
    destruct (loadPlugin_ _ _ _).1 as [p|]; [|done].
    destruct (initPlugin_ _ _ _ _).1; [|done].
    destruct Hregistry as (H1 & H2 & H3 & H4 & H5).
    split_and!; try done.
    intros Hs%reachable_consistent. apply H5.
    replace s1 with (load_loop pre s).2 by by rewrite Hpre.
    by apply consistent_load_loop.
Qed.

(** C10: let [name] be a configured name whose turn comes while it is not
    registered, and let the parameter [<name>.type] have no value.  Then
    the type string is empty, the call goes on, and the factory is called
    with the empty string: the name is admitted, under the empty type, when
    the factory yields an instance and the initializer accepts it, and is
    left out otherwise. *)
Theorem missing_type_is_empty_string s pre name post s1 :
  reachable s ->
  configured_names s = pre ++ name :: post ->
  load_loop pre s = (None, s1) ->
  hasPlugin name (self s1) = false ->
  string_parameters (node s) !! (name +:+ ".type") = None ->
  type_of_name s1 name = "" /\
  exists s2,
    load_one name s1 = (None, s2) /\
    load_loop (configured_names s) s = load_loop post s2 /\
    (exists evs, history s2 = history s1 ++ CalledLoadPlugin "" :: evs) /\
    match (loadPlugin_ (self s1) "" (world s1)).1 with
    | Some p =>
        if (initPlugin_ (self s1) name (Some p)
              (loadPlugin_ (self s1) "" (world s1)).2).1
        then hasPlugin name (self s2) = true /\
             plugins_ (self s2) !! name = Some (Some p) /\
             getType name (self s2) = Returns ""
        else self s2 = self s1
    | None => self s2 = self s1
    end.
Proof.
  intros Hreach Hnames Hpre Hreg Hpar.
  assert (grows s s1 /\ consistent s1) as [Hg Hcons].
  { replace s1 with (load_loop pre s).2 by by rewrite Hpre.
    split; [apply load_loop_grows|].
    by apply consistent_load_loop, reachable_consistent. }
  assert (type_of_name s1 name = "") as Hty.
  { unfold type_of_name. by rewrite (grows_node _ _ Hg), Hpar. }
  split; [done|].
  destruct (load_one_unregistered_history s1 name Hreg) as [Hret Hhist].
  rewrite Hty in Hhist.
  exists (load_one name s1).2. split_and!.
  - rewrite <- Hret. by destruct (load_one name s1).
  - rewrite Hnames. erewrite load_loop_reaches by done. by rewrite Hret.
  - eexists. apply Hhist.
  - clear Hhist Hret. rewrite hasPlugin_found in Hreg.
    destruct (load_one_cases s1 name) as [Hf|w1 Hf Hl|p w1 w2 Hf Hl Hi|p w1 w2 Hf Hl Hi];
      [congruence | | |]; rewrite Hty in *; rewrite Hl; cbn [fst snd];
      rewrite ?Hi; cbn [fst snd self]; try done.
    apply std_map_found_false in Hf.
    assert (plugins_type_ (self s1) !! name = None) as Hfty.
    { apply not_elem_of_dom. rewrite (cons_types _ Hcons).
      by apply not_elem_of_dom. }
    rewrite hasPlugin_lookup. unfold getType. cbn.
    rewrite !std_map_insert_fresh by done.
    rewrite !lookup_insert_eq. by split_and!.
Qed.

(** C5: in every reachable state, [hasPlugin(name)] is [true] exactly when
    [name] is a key of the registry; [getPlugin(name)] returns the stored
    instance when [hasPlugin(name)] is [true] and the null pointer when it
    is [false], so its result is non-null exactly for the registered names;
    and [getPlugin] leaves the manager, the node and the world as they
    were ([hasPlugin] is a function of the manager and changes nothing). *)
Theorem hasPlugin_getPlugin_registry s name :
  reachable s ->
  (hasPlugin name (self s) = true <-> name ∈ dom (plugins_ (self s))) /\
  (hasPlugin name (self s) = true ->
     exists p, plugins_ (self s) !! name = Some (Some p) /\
               (getPlugin name s).1 = Some p) /\
  (hasPlugin name (self s) = false -> (getPlugin name s).1 = None) /\
  ((getPlugin name s).1 <> None <-> hasPlugin name (self s) = true) /\
  self (getPlugin name s).2 = self s /\
  node (getPlugin name s).2 = node s /\
  world (getPlugin name s).2 = world s.
Proof.
  intros Hcons%reachable_consistent.
  pose proof (cons_nonnull _ Hcons name) as Hnn.
  rewrite getPlugin_unfold, hasPlugin_lookup, hasPlugin_false, elem_of_dom.
  destruct (plugins_ (self s) !! name) as [[p|]|] eqn:E; [|done|]; cbn.
  - split_and!; try done. intros _. by exists p.
  - split_and!; try done; by intros [? ?].
Qed.

(** C6: in every state reachable from construction, the name-to-instance
    map, the name-to-type map and the name list hold the same names, the
    list holds no name twice, and [getLoadedNames()] is the list of the
    names admitted since the last [clearPlugins()], in the order of their
    admission; a name is in it exactly when [hasPlugin] says so. *)
Theorem registry_views_consistent s :
  reachable s ->
  dom (plugins_ (self s)) = dom (plugins_type_ (self s)) /\
  dom (plugins_ (self s)) = list_to_set (names_ (self s)) /\
  NoDup (getLoadedNames (self s)) /\
  getLoadedNames (self s) = admitted_names (history s) /\
  (forall name, name ∈ getLoadedNames (self s) <-> hasPlugin name (self s) = true).
Proof.
  intros [Hty Hnm Hnd Hnn Hord Hadm]%reachable_consistent.
  unfold getLoadedNames. split_and!; try done.
  intros name. rewrite hasPlugin_lookup, <- elem_of_dom, <- Hnm.
  by rewrite elem_of_list_to_set.
Qed.

(** C8: in every reachable state, for a name with [hasPlugin(name)] true,
    the lookup of [getType(name)] finds an entry and returns its type
    string, which is the string the factory was called with when the name
    was admitted (the last admission is the one since the last clear); for
    a name with [hasPlugin(name)] false the lookup finds nothing and the
    dereference is undefined. *)
Theorem getType_of_registered s name :
  reachable s ->
  (hasPlugin name (self s) = true ->
     exists type p h1 h2,
       getType name (self s) = Returns type /\
       plugins_type_ (self s) !! name = Some type /\
       plugins_ (self s) !! name = Some (Some p) /\
       history s = h1 ++ [CalledLoadPlugin type;
                          CalledInitPlugin name (Some p);
                          InfoLoaded type name] ++ h2 /\
       CalledClearPlugins ∉ h2) /\
  (hasPlugin name (self s) = false ->
     getType name (self s) = UndefinedBehaviour).
Proof.
  intros [Hty Hnm Hnd Hnn Hord Hadm]%reachable_consistent.
  unfold getType. split.
  - intros Hreg%hasPlugin_lookup%elem_of_dom.
    rewrite <- Hty in Hreg. apply elem_of_dom in Hreg as [type Htype].
    rewrite Htype.
    destruct (Hadm name type Htype) as (p & h1 & h2 & Hp & Hh & Hc).
    by exists type, p, h1, h2.
  - intros Hreg%hasPlugin_false%not_elem_of_dom.
    rewrite <- Hty in Hreg. apply not_elem_of_dom in Hreg. by rewrite Hreg.
Qed.

Lemma same_upto_step h s s' n n' w m evs :
  same_upto h s s' ->
  string_parameters n = string_parameters n' ->
  same_upto h (mkState m n w (history s ++ evs))
              (mkState m n' w (history s' ++ evs)).
Proof.
  intros (Hself & Hw & Hp & Hh) Hn. split_and!; cbn; try done.
  by rewrite Hh, <- app_assoc.
Qed.

Lemma load_one_same_upto h s s' name :
  same_upto h s s' ->
  (load_one name s).1 = (load_one name s').1 /\
  same_upto h (load_one name s).2 (load_one name s').2.
Proof.
  intros Hsim. pose proof Hsim as (Hself & Hw & Hp & Hh).
  assert (type_of_name s name = type_of_name s' name) as Hty.
  { unfold type_of_name. by rewrite Hp. }
  destruct (load_one_cases s' name) as [Hf|w1 Hf Hl|p w1 w2 Hf Hl Hi|p w1 w2 Hf Hl Hi];
    rewrite <- Hself, <- ?Hw, <- ?Hty in *.
  - rewrite load_one_registered by done. split; [done|].
    rewrite Hw. by apply same_upto_step.
  - erewrite load_one_factory_miss by done. split; [done|].
    by apply same_upto_step.
  - erewrite load_one_init_failure by done. split; [done|].
    by apply same_upto_step.
  - erewrite load_one_admitted by done. split; [done|].
    by apply same_upto_step.
Qed.

Lemma load_loop_same_upto h l s s' :
  same_upto h s s' ->
  (load_loop l s).1 = (load_loop l s').1 /\
  same_upto h (load_loop l s).2 (load_loop l s').2.
Proof.
  revert s s'. induction l as [|name l IH]; intros s s' Hsim; [done|].
  rewrite !load_loop_cons.
  destruct (load_one_same_upto h s s' name Hsim) as [Hr Hs]. rewrite Hr.
  destruct (load_one name s').1; [done|]. by apply IH.
Qed.

Lemma loadPlugins_same_upto h s s' :
  same_upto h s s' ->
  configured_names s = configured_names s' ->
  (loadPlugins s).1 = (loadPlugins s').1 /\
  same_upto h (loadPlugins s).2 (loadPlugins s').2.
Proof.
  intros Hsim Hnames. rewrite !loadPlugins_unfold, Hnames.
  destruct (vector_empty _).
  - split; [done|]. destruct Hsim as (Hself & Hw & Hp & Hh).
    rewrite Hself, Hw. by apply same_upto_step.
  - destruct (load_loop_same_upto h (configured_names s') s s' Hsim) as [Hr Hs].
    rewrite Hr. destruct (load_loop _ s').1; cbn; [done|].
    split; [|done]. destruct Hs as (-> & _). done.
Qed.

(** With distinct names, none of them registered, the loop runs to its
    end. *)
Lemma load_loop_no_abort l s :
  NoDup l ->
  (forall name, name ∈ l -> hasPlugin name (self s) = false) ->
  (load_loop l s).1 = None.
Proof.
  revert s. induction l as [|name l IH]; intros s Hnd Hfree; [done|].
  apply NoDup_cons in Hnd as [Hnin Hnd].
  rewrite load_loop_cons.
  destruct (load_one_unregistered_history s name) as [Hret _].
  { apply Hfree. by left. }
  rewrite Hret. apply IH; [done|].
  intros k Hk. apply not_true_is_false. intros Hreg.
  apply load_one_new_name in Hreg as [Hreg| ->]; [|done].
  rewrite Hfree in Hreg by by right. done.
Qed.

(** C7: after [clearPlugins()] the three views are empty and
    [getLoadedNames()] is the empty list; the manager is the one a
    constructor call with the same arguments builds, and [loadPlugins()]
    then does what it does on that new manager: same result, same registry,
    same world, and the same events after those of the past.  Names
    registered before the clear are not registered any more, and with a
    list of distinct names the loop runs to its end. *)
Theorem clearPlugins_fresh_start s :
  let cleared := (clearPlugins s).2 in
  let fresh := construct (param_name_ (self s)) (loadPlugin_ (self s))
                 (initPlugin_ (self s)) (node s) (world s) in
  plugins_ (self cleared) = ∅ /\
  plugins_type_ (self cleared) = ∅ /\
  names_ (self cleared) = [] /\
  getLoadedNames (self cleared) = [] /\
  self cleared = self fresh /\
  (loadPlugins cleared).1 = (loadPlugins fresh).1 /\
  self (loadPlugins cleared).2 = self (loadPlugins fresh).2 /\
  world (loadPlugins cleared).2 = world (loadPlugins fresh).2 /\
  history (loadPlugins cleared).2 = history s ++ history (loadPlugins fresh).2 /\
  (forall name, hasPlugin name (self cleared) = false) /\
  (NoDup (configured_names cleared) ->
   (load_loop (configured_names cleared) cleared).1 = None).
Proof.
  intros cleared fresh.
  assert (self cleared = self fresh) as Hself.
  { unfold fresh, construct. by destruct (declare_parameter_strings _ _ _). }
  assert (same_upto (history s) cleared fresh /\
          configured_names cleared = configured_names fresh) as [Hsim Hnames].
  { unfold configured_names. rewrite <- Hself.
    unfold fresh, construct, declare_parameter_strings. cbn.
    destruct (string_array_parameters (node s) !! param_name_ (self s)) eqn:E;
      cbn; rewrite ?E, ?lookup_insert_eq; split; try done;
      split_and!; cbn; try done; by rewrite app_nil_r. }
  destruct (loadPlugins_same_upto _ _ _ Hsim Hnames) as (Hr & Hs & Hw & _ & Hh).
  split_and!; try done.
  intros Hnd. by apply load_loop_no_abort.
Qed.

End Claims.

(** ** The scenarios, run *)

Ltac run := vm_compute; first [reflexivity | discriminate].



(** A list that holds "p1" twice, where "p1" fails to load both times:
    the call returns [true], and the name after the repeat is attempted
    and admitted. *)
Lemma loadPlugins_repeat_without_abort :
  configured_names twice_failed = ["p1"; "p1"; "p3"] /\
  (loadPlugins twice_failed).1 = true /\
  history (loadPlugins twice_failed).2 =
    [CalledLoadPlugin ""; ErrorCouldNotLoad "p1" "";
     CalledLoadPlugin ""; ErrorCouldNotLoad "p1" "";
     CalledLoadPlugin "tA"; CalledInitPlugin "p3" (Some 0);
     InfoLoaded "tA" "p3"] /\
  hasPlugin "p3" (self (loadPlugins twice_failed).2) = true.
Proof. split_and!; run. Qed.

(** The second "p1" comes while the first is registered: the call returns
    [false] and "p1" stays. *)
Lemma loadPlugins_duplicate_abort_witness :
  configured_names twice_loaded = ["p1"] ++ "p1" :: [] /\
  load_loop ["p1"] twice_loaded = (None, (load_loop ["p1"] twice_loaded).2) /\
  hasPlugin "p1" (self (load_loop ["p1"] twice_loaded).2) = true /\
  (loadPlugins twice_loaded).1 = false /\
  hasPlugin "p1" (self (loadPlugins twice_loaded).2) = true.
Proof.
  assert (configured_names twice_loaded = ["p1"] ++ "p1" :: []) as H1 by run.
  assert (load_loop ["p1"] twice_loaded =
            (None, (load_loop ["p1"] twice_loaded).2)) as H2 by run.
  assert (hasPlugin "p1" (self (load_loop ["p1"] twice_loaded).2) = true)
    as H3 by run.
  split_and!; [exact H1 | exact H2 | exact H3 | |];
    destruct (loadPlugins_duplicate_abort twice_loaded ["p1"] "p1" []
                (load_loop ["p1"] twice_loaded).2 H1 H2) as [Habort _];
    destruct (Habort H3) as (Hcall & Hkeep & _).
  - rewrite Hcall. reflexivity.
  - apply Hkeep. exact H3.
Defined.

(** A manager that holds "p1" and then finds its name list empty. *)
Lemma loadPlugins_empty_list_witness :
  configured_names emptied_later = [] /\
  (loadPlugins emptied_later).1 = false /\
  self (loadPlugins emptied_later).2 = self emptied_later /\
  hasPlugin "p1" (self (loadPlugins emptied_later).2) = true.
Proof.
  assert (configured_names emptied_later = []) as H1 by run.
  destruct (loadPlugins_empty_list emptied_later H1) as (Hr & Hself & _).
  split_and!; [exact H1 | exact Hr | exact Hself |].
  rewrite Hself. run.
Defined.

(** The initializer refuses "p2" (instance 1, world 2 after the factory). *)
Lemma load_failure_skips_name_witness :
  configured_names second_refused = ["p1"] ++ "p2" :: [] /\
  hasPlugin "p2" (self (load_loop ["p1"] second_refused).2) = false /\
  hasPlugin "p2" (self (loadPlugins second_refused).2) = false.
Proof.
  assert (configured_names second_refused = ["p1"] ++ "p2" :: []) as H1 by run.
  assert (load_loop ["p1"] second_refused =
            (None, (load_loop ["p1"] second_refused).2)) as H2 by run.
  assert (hasPlugin "p2" (self (load_loop ["p1"] second_refused).2) = false)
    as H3 by run.
  split_and!; [exact H1 | exact H3 |].
  destruct (load_failure_skips_name second_refused ["p1"] "p2" []
              (load_loop ["p1"] second_refused).2 H1 H2 H3)
    as (s2 & _ & _ & _ & _ & _ & _ & _ & _ & Hend).
  - right. exists 1, 2. split; run.
  - apply Hend. intros Hin. inversion Hin.
Defined.

(** The second "p1" comes after a first one that the factory missed: the
    factory is called again, and this time "p1" is admitted: it is
    registered with the instance 1, it is the one loaded name, and the call
    returns [true]. *)
Lemma repeated_name_reprocessed_witness :
  configured_names retried = ["p1"] ++ "p1" :: [] /\
  "p1" ∈ ["p1"] /\
  hasPlugin "p1" (self (load_loop ["p1"] retried).2) = false /\
  exists s2,
    load_one "p1" (load_loop ["p1"] retried).2 = (None, s2) /\
    history s2 =
      [CalledLoadPlugin "tA"; ErrorCouldNotLoad "p1" "tA";
       CalledLoadPlugin "tA"; CalledInitPlugin "p1" (Some 1);
       InfoLoaded "tA" "p1"] /\
    (loadPlugins retried).2 = s2 /\
    hasPlugin "p1" (self s2) = true /\
    plugins_ (self s2) !! "p1" = Some (Some 1) /\
    getLoadedNames (self s2) = ["p1"] /\
    (loadPlugins retried).1 = true.
Proof.
  assert (configured_names retried = ["p1"] ++ "p1" :: []) as H1 by run.
  assert ("p1" ∈ ["p1"]) as H2 by (apply list_elem_of_here).
  assert (load_loop ["p1"] retried = (None, (load_loop ["p1"] retried).2))
    as H3 by run.
  assert (hasPlugin "p1" (self (load_loop ["p1"] retried).2) = false)
    as H4 by run.
  split_and!; [exact H1 | exact H2 | exact H4 |].
  destruct (repeated_name_reprocessed retried ["p1"] "p1" []
              (load_loop ["p1"] retried).2 H1 H2 H3 H4)
    as (s2 & Hone & _ & Hend & Hhist & _ & Hadmitted).
  vm_compute in Hadmitted.
  destruct Hadmitted as (Hhas & Hptr & Hnames & _).
  exists s2.
  split_and!; [exact Hone | rewrite Hhist; run | exact Hend | exact Hhas
              | | | run].
  - exact Hptr.
  - exact Hnames.
Defined.

(** The scenarios are states of runs. *)
Lemma reachable_twice_failed : reachable twice_failed.
Proof.
  exists "planners", counting_factory, picky_init,
    (scenario_node ["p1"; "p1"; "p3"] [("p3", "tA")]), 0, [].
  reflexivity.
Defined.

Lemma reachable_after_first_load : reachable after_first_load.
Proof.
  exists "planners", counting_factory, picky_init,
    (scenario_node ["p1"; "p2"] [("p1", "tA"); ("p2", "tA")]), 0,
    [OpLoadPlugins].
  reflexivity.
Defined.

(** "p1" has no [p1.type]: the factory is asked for the empty type. *)
Lemma missing_type_is_empty_string_witness :
  reachable twice_failed /\
  configured_names twice_failed = [] ++ "p1" :: ["p1"; "p3"] /\
  hasPlugin "p1" (self twice_failed) = false /\
  string_parameters (node twice_failed) !! ("p1" +:+ ".type") = None /\
  type_of_name twice_failed "p1" = "" /\
  exists s2,
    load_one "p1" twice_failed = (None, s2) /\
    self s2 = self twice_failed.
Proof.
  assert (configured_names twice_failed = [] ++ "p1" :: ["p1"; "p3"]) as H1 by run.
  assert (load_loop [] twice_failed = (None, twice_failed)) as H2 by reflexivity.
  assert (hasPlugin "p1" (self twice_failed) = false) as H3 by run.
  assert (string_parameters (node twice_failed) !! ("p1" +:+ ".type") = None)
    as H4 by run.
  split_and!; [exact reachable_twice_failed | exact H1 | exact H3 | exact H4 | |];
    destruct (missing_type_is_empty_string twice_failed [] "p1" ["p1"; "p3"]
                twice_failed reachable_twice_failed H1 H2 H3 H4)
      as (Hty & s2 & Hone & _ & _ & Hout).
  - exact Hty.
  - exists s2. split; [exact Hone | exact Hout].
Defined.

(** After the first load, "p1" is there and "p2" is not. *)
Lemma hasPlugin_getPlugin_registry_witness :
  reachable after_first_load /\
  hasPlugin "p1" (self after_first_load) = true /\
  (getPlugin "p1" after_first_load).1 = Some 0 /\
  hasPlugin "p2" (self after_first_load) = false /\
  (getPlugin "p2" after_first_load).1 = None.
Proof.
  destruct (hasPlugin_getPlugin_registry after_first_load "p1"
              reachable_after_first_load) as (_ & Hget & _).
  destruct (hasPlugin_getPlugin_registry after_first_load "p2"
              reachable_after_first_load) as (_ & _ & Hmiss & _).
  assert (hasPlugin "p1" (self after_first_load) = true) as H1 by run.
  assert (hasPlugin "p2" (self after_first_load) = false) as H2 by run.
  split_and!; [exact reachable_after_first_load | exact H1 | | exact H2 | exact (Hmiss H2)].
  destruct (Hget H1) as (p & Hp & Hres). rewrite Hres.
  vm_compute in Hp. injection Hp as Hp. rewrite Hp. reflexivity.
Defined.

(** After the first load the name list is the one admitted name. *)
Lemma registry_views_consistent_witness :
  reachable after_first_load /\
  getLoadedNames (self after_first_load) = ["p1"] /\
  getLoadedNames (self after_first_load) = admitted_names (history after_first_load).
Proof.
  destruct (registry_views_consistent after_first_load
              reachable_after_first_load) as (_ & _ & _ & Hord & _).
  split_and!; [exact reachable_after_first_load | run | exact Hord].
Defined.

(** After the first load, the type of "p1" is the configured one. *)
Lemma getType_of_registered_witness :
  reachable after_first_load /\
  hasPlugin "p1" (self after_first_load) = true /\
  getType "p1" (self after_first_load) = Returns "tA" /\
  hasPlugin "p2" (self after_first_load) = false /\
  getType "p2" (self after_first_load) = UndefinedBehaviour.
Proof.
  destruct (getType_of_registered after_first_load "p2"
              reachable_after_first_load) as (_ & Hundef).
  destruct (getType_of_registered after_first_load "p1"
              reachable_after_first_load) as (Hdef & _).
  assert (hasPlugin "p1" (self after_first_load) = true) as H1 by run.
  assert (hasPlugin "p2" (self after_first_load) = false) as H2 by run.
  split_and!; [exact reachable_after_first_load | exact H1 | | exact H2 | exact (Hundef H2)].
  destruct (Hdef H1) as (type & p & h1 & h2 & Hget & Hty & _). rewrite Hget.
  vm_compute in Hty. injection Hty as Hty. rewrite Hty. reflexivity.
Defined.

(** A reload: "p1" is loaded, the registry is cleared, and the same
    configuration is loaded again, with no duplicate error. *)
Lemma clearPlugins_fresh_start_witness :
  getLoadedNames (self (clearPlugins after_first_load).2) = [] /\
  (loadPlugins (clearPlugins after_first_load).2).1 = true /\
  history (loadPlugins (clearPlugins after_first_load).2).2 =
    history after_first_load ++
    [CalledLoadPlugin "tA"; CalledInitPlugin "p1" (Some 2);
     InfoLoaded "tA" "p1"; CalledLoadPlugin "tA";
     CalledInitPlugin "p2" (Some 3); ErrorCouldNotLoad "p2" "tA"].
Proof.
  destruct (clearPlugins_fresh_start after_first_load)
    as (_ & _ & _ & Hnames & _ & Hres & _ & _ & Hhist & _).
  split_and!; [exact Hnames | rewrite Hres; run | rewrite Hhist; run].
Defined.

(** The five scenarios of the specification. *)
Example scenario_all_load :
  let r := loadPlugins (scenario ["p1"; "p3"] [("p1", "tA"); ("p3", "tA")]) in
  r.1 = true /\ getLoadedNames (self r.2) = ["p1"; "p3"] /\
  hasPlugin "p1" (self r.2) = true.
Proof. split_and!; run. Qed.

Example scenario_duplicate :
  (loadPlugins twice_loaded).1 = false /\
  hasPlugin "p1" (self (loadPlugins twice_loaded).2) = true.
Proof. split_and!; run. Qed.

Example scenario_no_names :
  let r := loadPlugins (scenario [] []) in
  r.1 = false /\ getLoadedNames (self r.2) = [].
Proof. split_and!; run. Qed.

Example scenario_unknown_type :
  let r := loadPlugins (scenario ["p1"] [("p1", "unknown")]) in
  r.1 = false /\ hasPlugin "p1" (self r.2) = false.
Proof. split_and!; run. Qed.

Example scenario_init_failure :
  (loadPlugins second_refused).1 = true /\
  getLoadedNames (self (loadPlugins second_refused).2) = ["p1"] /\
  hasPlugin "p2" (self (loadPlugins second_refused).2) = false.
Proof. split_and!; run. Qed.

(** ** More on [loadPlugins()]: what a call keeps, adds and calls *)

Section Loading.
Context {P W : Type}.
Implicit Types (s : State P W) (m : Manager P W) (name type : string).

Lemma std_map_empty_false {V} (m : gmap string V) :
  std_map_empty m = false <-> m <> ∅.
Proof.
  unfold std_map_empty. by rewrite Nat.eqb_neq, map_size_empty_iff.
Qed.

Lemma type_of_name_node s s' name :
  node s' = node s -> type_of_name s' name = type_of_name s name.
Proof. unfold type_of_name. by intros ->. Qed.

(** A name that is registered when the loop starts stops the loop, at its
    turn at the latest. *)
Lemma load_loop_aborts l s name :
  name ∈ l -> hasPlugin name (self s) = true -> (load_loop l s).1 = Some false.
Proof.
  revert s. induction l as [|n l IH]; intros s Hin Hreg; [by inversion Hin|].
  rewrite load_loop_cons.
  destruct (load_one n s).1 as [b|] eqn:Hone.
  - cbn. f_equal. apply (load_loop_returns_false [n] s).
    rewrite load_loop_cons, Hone. done.
  - apply IH.
    + apply elem_of_cons in Hin as [->|Hin]; [|done].
      rewrite load_one_registered in Hone by by rewrite <- hasPlugin_found.
      done.
    + eapply grows_hasPlugin; [apply load_one_grows | done].
Qed.

(** The names the loop appends are names of its list, in the order of the
    list. *)
Lemma load_loop_added l s :
  exists added,
    names_ (self (load_loop l s).2) = names_ (self s) ++ added /\
    added `sublist_of` l.
Proof.
  revert s. induction l as [|n l IH]; intros s.
  { exists []. by rewrite app_nil_r. }
  rewrite load_loop_cons.
  destruct (load_one_cases s n) as [Hf|w1 Hf Hl|p w1 w2 Hf Hl Hi|p w1 w2 Hf Hl Hi];
    cbn [fst snd].
  - exists []. cbn. rewrite app_nil_r. split; [done | apply sublist_nil_l].
  - destruct (IH (mkState (self s) (node s) w1
       (history s ++ [CalledLoadPlugin (type_of_name s n);
                      ErrorCouldNotLoad n (type_of_name s n)])))
      as (added & Hnames & Hsub).
    exists added. split; [done | by apply sublist_cons].
  - destruct (IH (mkState (self s) (node s) w2
       (history s ++ [CalledLoadPlugin (type_of_name s n);
                      CalledInitPlugin n (Some p);
                      ErrorCouldNotLoad n (type_of_name s n)])))
      as (added & Hnames & Hsub).
    exists added. split; [done | by apply sublist_cons].
  - destruct (IH (mkState (admit_plugin n (type_of_name s n) (Some p) (self s))
       (node s) w2
       (history s ++ [CalledLoadPlugin (type_of_name s n);
                      CalledInitPlugin n (Some p);
                      InfoLoaded (type_of_name s n) n])))
      as (added & Hnames & Hsub).
    exists (n :: added). split; [|by apply sublist_skip].
    rewrite Hnames. cbn. unfold push_back. by rewrite <- app_assoc.
Qed.

Lemma sublist_same_length {A} (l k : list A) :
  l `sublist_of` k -> length l = length k -> l = k.
Proof.
  induction 1 as [|x l k Hsub IH|x l k Hsub IH]; cbn; intros Hlen; [done| |].
  - f_equal. apply IH. lia.
  - apply sublist_length in Hsub. lia.
Qed.

(** X1: [loadPlugins()] never removes or replaces what the registry holds:
    every stored instance and every recorded type is still there after the
    call, the name list has only grown at its end, the history has only
    grown, and the node and the members set by the constructor are
    untouched. *)
Theorem loadPlugins_keeps_entries s :
  (forall name plugin_ptr,
     plugins_ (self s) !! name = Some plugin_ptr ->
     plugins_ (self (loadPlugins s).2) !! name = Some plugin_ptr) /\
  (forall name type,
     getType name (self s) = Returns type ->
     getType name (self (loadPlugins s).2) = Returns type) /\
  getLoadedNames (self s) `prefix_of` getLoadedNames (self (loadPlugins s).2) /\
  history s `prefix_of` history (loadPlugins s).2 /\
  node (loadPlugins s).2 = node s /\
  param_name_ (self (loadPlugins s).2) = param_name_ (self s) /\
  loadPlugin_ (self (loadPlugins s).2) = loadPlugin_ (self s) /\
  initPlugin_ (self (loadPlugins s).2) = initPlugin_ (self s).
Proof.
  destruct (loadPlugins_grows s) as [Hn Hpn Hlp Hip Hpl Hty Hnm Hh].
  split_and!; try done.
  - intros name ptr Hptr. by eapply lookup_weaken.
  - intros name type. unfold getType.
    destruct (plugins_type_ (self s) !! name) as [ty|] eqn:E; [|done].
    intros [= ->]. by rewrite (lookup_weaken _ _ _ _ E Hty).
Qed.

(** X2: the names a call of [loadPlugins()] appends to the name list are
    configured names, in the order of the configuration; a name registered
    after the call was registered before it or is a configured name; and
    when as many names were appended as are configured, every configured
    name was admitted.  (This is the size comparison a caller has to make:
    the boolean does not tell a partial success from a full one.) *)
Theorem loadPlugins_adds_configured_names s :
  exists added,
    getLoadedNames (self (loadPlugins s).2) = getLoadedNames (self s) ++ added /\
    added `sublist_of` configured_names s /\
    (forall name,
       hasPlugin name (self (loadPlugins s).2) = true ->
       hasPlugin name (self s) = true \/ name ∈ configured_names s) /\
    (length added = length (configured_names s) -> added = configured_names s).
Proof.
  unfold getLoadedNames.
  destruct (configured_names s) as [|n l] eqn:Hl.
  { exists []. rewrite loadPlugins_unfold, Hl. cbn.
    rewrite app_nil_r. split_and!; try done. by left. }
  rewrite loadPlugins_state by by rewrite Hl.
  rewrite Hl.
  destruct (load_loop_added (n :: l) s) as (added & Hnames & Hsub).
  exists added. split_and!; try done.
  - apply load_loop_new_name.
  - by apply sublist_same_length.
Qed.

(** X3: a configured name that is registered before the call makes
    [loadPlugins()] return [false]: loading again without [clearPlugins()]
    fails. *)
Theorem loadPlugins_registered_name_fails s name :
  name ∈ configured_names s ->
  hasPlugin name (self s) = true ->
  (loadPlugins s).1 = false.
Proof.
  intros Hin Hreg. rewrite loadPlugins_unfold.
  destruct (vector_empty _); [done|].
  by rewrite (load_loop_aborts _ _ _ Hin Hreg).
Qed.

(** X4: after a call of [loadPlugins()] that started from an empty registry
    and returned [true], a second call with the same parameters returns
    [false]. *)
Theorem loadPlugins_twice_fails s :
  plugins_ (self s) = ∅ ->
  (loadPlugins s).1 = true ->
  (loadPlugins (loadPlugins s).2).1 = false.
Proof.
  intros Hempty Htrue.
  assert (configured_names (loadPlugins s).2 = configured_names s) as Hnames.
  { destruct (loadPlugins_grows s) as [Hn Hpn _ _ _ _ _ _].
    unfold configured_names. by rewrite Hn, Hpn. }
  assert (exists name, name ∈ configured_names s /\
            hasPlugin name (self (loadPlugins s).2) = true) as (name & Hin & Hreg).
  { rewrite loadPlugins_unfold in Htrue |- *.
    destruct (configured_names s) as [|n l] eqn:Hl; [done|].
    cbn [vector_empty] in *.
    destruct (load_loop (n :: l) s).1 as [b|] eqn:Hloop; cbn [fst snd] in *.
    { apply load_loop_returns_false in Hloop. congruence. }
    apply negb_true_iff, std_map_empty_false in Htrue.
    apply map_choose in Htrue as (name & ptr & Hptr).
    exists name.
    assert (hasPlugin name (self (load_loop (n :: l) s).2) = true) as Hreg.
    { apply hasPlugin_lookup. by exists ptr. }
    split; [|done].
    apply load_loop_new_name in Hreg as [Hreg|Hin]; [|done].
    apply hasPlugin_lookup in Hreg as [? Hreg].
    by rewrite Hempty, lookup_empty in Hreg. }
  rewrite loadPlugins_unfold, Hnames.
  destruct (vector_empty _); [done|].
  by rewrite (load_loop_aborts _ _ _ Hin Hreg).
Qed.

(** X5: a call of [loadPlugins()] that gets through its non-empty list over
    a registry that is not empty returns [true], even when none of the
    configured names was admitted. *)
Theorem loadPlugins_true_on_old_entries s :
  configured_names s <> [] ->
  (load_loop (configured_names s) s).1 = None ->
  plugins_ (self s) <> ∅ ->
  (loadPlugins s).1 = true.
Proof.
  intros Hne Hloop Hold. rewrite loadPlugins_unfold.
  destruct (configured_names s) as [|n l] eqn:Hl; [done|].
  cbn [vector_empty]. rewrite Hloop. cbn [fst snd].
  apply negb_true_iff, std_map_empty_false. intros Hempty.
  apply map_choose in Hold as (name & ptr & Hptr).
  pose proof (grows_plugins _ _ (load_loop_grows (n :: l) s)) as Hsub.
  apply (lookup_weaken _ _ _ _ Hptr) in Hsub.
  by rewrite Hempty, lookup_empty in Hsub.
Qed.

Lemma factory_calls_app (h1 h2 : list (Event P)) :
  factory_calls (h1 ++ h2) = factory_calls h1 ++ factory_calls h2.
Proof. apply omap_app. Qed.

Lemma initializer_calls_app (h1 h2 : list (Event P)) :
  initializer_calls (h1 ++ h2) = initializer_calls h1 ++ initializer_calls h2.
Proof. apply omap_app. Qed.

(** The factory calls of one pass of the loop body: none when the pass
    returns, which it does for a registered name only, and one, with the
    type configured for the name, when it does not. *)
Lemma load_one_factory_calls s name :
  match (load_one name s).1 with
  | Some _ =>
      hasPlugin name (self s) = true /\
      factory_calls (history (load_one name s).2) = factory_calls (history s)
  | None =>
      hasPlugin name (self s) = false /\
      factory_calls (history (load_one name s).2) =
        factory_calls (history s) ++ [type_of_name s name]
  end.
Proof.
  rewrite hasPlugin_found.
  destruct (load_one_cases s name) as [Hf|w1 Hf Hl|p w1 w2 Hf Hl Hi|p w1 w2 Hf Hl Hi];
    cbn [history]; rewrite factory_calls_app; (split; [done|]).
  - apply app_nil_r.
  - done.
  - done.
  - done.
Qed.

(** The factory calls of the loop: one for each name before the one at
    which it returns, or for each name of the list when it does not
    return, with the type configured for that name, in the order of the
    list. *)
Lemma load_loop_factory_calls l s :
  exists processed,
    factory_calls (history (load_loop l s).2) =
      factory_calls (history s) ++ (type_of_name s <$> processed) /\
    match (load_loop l s).1 with
    | None => processed = l
    | Some _ =>
        exists name rest,
          l = processed ++ name :: rest /\
          (load_loop processed s).1 = None /\
          hasPlugin name (self (load_loop processed s).2) = true
    end.
Proof.
  revert s. induction l as [|n l IH]; intros s.
  { exists []. cbn. by rewrite app_nil_r. }
  rewrite load_loop_cons.
  pose proof (load_one_factory_calls s n) as Hone.
  destruct (load_one n s).1 as [b|] eqn:Hret; cbn [fst snd].
  { destruct Hone as [Hreg Hcalls]. exists []. cbn.
    rewrite app_nil_r. split; [done|]. by exists n, l. }
  destruct Hone as [Hreg Hcalls].
  destruct (IH (load_one n s).2) as (processed & Hrest & Hend).
  assert (forall k, type_of_name (load_one n s).2 k = type_of_name s k) as Hty.
  { intros k. apply type_of_name_node. apply load_one_grows. }
  exists (n :: processed). split.
  - rewrite Hrest, Hcalls, <- app_assoc. cbn. do 2 f_equal.
    apply list_fmap_ext. intros ? k ?. apply Hty.
  - destruct (load_loop l (load_one n s).2).1.
    + destruct Hend as (name & rest & -> & Hnone & Hname).
      exists name, rest. rewrite load_loop_cons, Hret. by split_and!.
    + by rewrite Hend.
Qed.

(** X6: in one call of [loadPlugins()] the factory is called once for each
    configured name the loop gets through, in the order of the list and
    with the type string configured for that name.  These names are all
    the configured names when the loop runs to its end; when it returns
    early they are exactly the names before the one it returns at, which
    is registered when its turn comes and for which the factory is not
    called. *)
Theorem loadPlugins_factory_calls s :
  exists processed,
    factory_calls (history (loadPlugins s).2) =
      factory_calls (history s) ++ (type_of_name s <$> processed) /\
    match (load_loop (configured_names s) s).1 with
    | None => processed = configured_names s
    | Some _ =>
        exists name rest,
          configured_names s = processed ++ name :: rest /\
          (load_loop processed s).1 = None /\
          hasPlugin name (self (load_loop processed s).2) = true
    end.
Proof.
  destruct (configured_names s) as [|n l] eqn:Hl.
  { exists []. rewrite loadPlugins_unfold, Hl. cbn.
    rewrite factory_calls_app. split; [reflexivity | done]. }
  rewrite loadPlugins_state by by rewrite Hl.
  rewrite Hl. apply load_loop_factory_calls.
Qed.

(** The counts of one pass of the loop body. *)
Lemma load_one_counts s name :
  exists a b c,
    length (factory_calls (history (load_one name s).2)) =
      length (factory_calls (history s)) + a /\
    length (initializer_calls (history (load_one name s).2)) =
      length (initializer_calls (history s)) + b /\
    length (names_ (self (load_one name s).2)) = length (names_ (self s)) + c /\
    c <= b /\ b <= a /\ a <= 1.
Proof.
  destruct (load_one_cases s name) as [Hf|w1 Hf Hl|p w1 w2 Hf Hl Hi|p w1 w2 Hf Hl Hi];
    cbn [history self admit_plugin names_ push_back];
    unfold factory_calls, initializer_calls, push_back;
    rewrite ?omap_app, ?length_app; cbn.
  - exists 0, 0, 0. split_and!; lia.
  - exists 1, 0, 0. split_and!; lia.
  - exists 1, 1, 0. split_and!; lia.
  - exists 1, 1, 1. split_and!; lia.
Qed.

Lemma load_loop_counts l s :
  exists a b c,
    length (factory_calls (history (load_loop l s).2)) =
      length (factory_calls (history s)) + a /\
    length (initializer_calls (history (load_loop l s).2)) =
      length (initializer_calls (history s)) + b /\
    length (names_ (self (load_loop l s).2)) = length (names_ (self s)) + c /\
    c <= b /\ b <= a /\ a <= length l.
Proof.
  revert s. induction l as [|n l IH]; intros s.
  { exists 0, 0, 0. cbn. split_and!; lia. }
  rewrite load_loop_cons.
  destruct (load_one_counts s n) as (a1 & b1 & c1 & Ha1 & Hb1 & Hc1 & ? & ? & ?).
  destruct (load_one n s).1; cbn [fst snd].
  - exists a1, b1, c1. cbn [length]. split_and!; try done; lia.
  - destruct (IH (load_one n s).2) as (a2 & b2 & c2 & Ha2 & Hb2 & Hc2 & ? & ? & ?).
    exists (a1 + a2), (b1 + b2), (c1 + c2). cbn [length]. split_and!; lia.
Qed.

(** X7: in one call of [loadPlugins()] there are at most as many admissions
    as initializer calls, at most as many initializer calls as factory
    calls, and at most as many factory calls as configured names. *)
Theorem loadPlugins_call_counts s :
  exists factory_calls_made initializer_calls_made admissions,
    length (factory_calls (history (loadPlugins s).2)) =
      length (factory_calls (history s)) + factory_calls_made /\
    length (initializer_calls (history (loadPlugins s).2)) =
      length (initializer_calls (history s)) + initializer_calls_made /\
    length (getLoadedNames (self (loadPlugins s).2)) =
      length (getLoadedNames (self s)) + admissions /\
    admissions <= initializer_calls_made /\
    initializer_calls_made <= factory_calls_made /\
    factory_calls_made <= length (configured_names s).
Proof.
  unfold getLoadedNames.
  destruct (configured_names s) as [|n l] eqn:Hl.
  { exists 0, 0, 0. rewrite loadPlugins_unfold, Hl. cbn.
    unfold factory_calls, initializer_calls.
    rewrite !omap_app, !length_app. cbn. split_and!; lia. }
  rewrite loadPlugins_state by by rewrite Hl.
  rewrite Hl. apply load_loop_counts.
Qed.

(** No event of a call hands the initializer a null pointer. *)
Lemma load_one_no_null_call s name :
  Forall (fun e => null_initializer_call e = false) (history s) ->
  Forall (fun e => null_initializer_call e = false) (history (load_one name s).2).
Proof.
  intros Hs.
  destruct (load_one_cases s name); cbn [history];
    apply Forall_app; (split; [done|]); by repeat constructor.
Qed.

Lemma load_loop_no_null_call l s :
  Forall (fun e => null_initializer_call e = false) (history s) ->
  Forall (fun e => null_initializer_call e = false) (history (load_loop l s).2).
Proof.
  revert s. induction l as [|n l IH]; intros s Hs; [done|].
  rewrite load_loop_cons. pose proof (load_one_no_null_call s n Hs).
  destruct (load_one n s).1; cbn [fst snd]; [done | by apply IH].
Qed.

Lemma exec_op_no_null_call (op : Op W) s :
  Forall (fun e => null_initializer_call e = false) (history s) ->
  Forall (fun e => null_initializer_call e = false) (history (exec_op op s)).
Proof.
  intros Hs. destruct op as [|name| |n w]; unfold exec_op.
  - rewrite loadPlugins_unfold. destruct (vector_empty _); cbn [fst snd].
    + apply Forall_app. split; [done | by repeat constructor].
    + destruct (load_loop _ _).1 eqn:E; cbn [fst snd];
        by apply load_loop_no_null_call.
  - rewrite getPlugin_unfold.
    destruct (plugins_ (self s) !! name); cbn [snd history];
      apply Forall_app; (split; [done | by repeat constructor]).
  - cbn. apply Forall_app. split; [done | by repeat constructor].
  - done.
Qed.

(** X8: the initializer is never handed a null pointer: in every reachable
    state, every initializer call of the history was made with an
    instance. *)
Theorem initializer_never_gets_null s name plugin_ptr :
  reachable s ->
  CalledInitPlugin name plugin_ptr ∈ history s ->
  is_Some plugin_ptr.
Proof.
  intros (pn & lp & ip & nh & w & ops & ->) Hin.
  assert (forall (ops : list (Op W)) s0,
            Forall (fun e => null_initializer_call e = false) (history s0) ->
            Forall (fun e => null_initializer_call e = false)
              (history (exec_ops ops s0))) as Hrun.
  { clear. intros ops. induction ops as [|op ops IH]; intros s0 Hs0; [done|].
    cbn. apply IH. by apply exec_op_no_null_call. }
  assert (Forall (fun e : Event P => null_initializer_call e = false)
            (history (construct pn lp ip nh w))) as Hinit.
  { unfold construct. by destruct (declare_parameter_strings _ _ _). }
  pose proof (Hrun ops _ Hinit) as Hall.
  rewrite Forall_forall in Hall. specialize (Hall _ Hin).
  by destruct plugin_ptr.
Qed.

(** A name that the loop registers is recorded with the type configured
    for it. *)
Lemma load_loop_new_type l s k :
  consistent s ->
  hasPlugin k (self s) = false ->
  hasPlugin k (self (load_loop l s).2) = true ->
  plugins_type_ (self (load_loop l s).2) !! k = Some (type_of_name s k).
Proof.
  revert s. induction l as [|n l IH]; intros s Hs Hbefore Hafter.
  { cbn in Hafter. congruence. }
  rewrite load_loop_cons in Hafter |- *.
  pose proof (consistent_load_one s n Hs) as Hs1.
  pose proof (load_loop_grows l (load_one n s).2) as Hg.
  destruct (load_one_cases s n) as [Hf|w1 Hf Hl|p w1 w2 Hf Hl Hi|p w1 w2 Hf Hl Hi];
    cbn [fst snd] in *.
  - cbn in Hafter. congruence.
  - by apply (IH _ Hs1).
  - by apply (IH _ Hs1).
  - destruct (decide (k = n)) as [->|Hne].
    + eapply lookup_weaken; [|apply Hg]. cbn.
      apply std_map_found_false in Hf.
      rewrite std_map_insert_fresh; [apply lookup_insert_eq|].
      apply not_elem_of_dom. rewrite (cons_types _ Hs).
      by apply not_elem_of_dom.
    + apply (IH _ Hs1); [|done].
      apply hasPlugin_false. cbn.
      apply std_map_found_false in Hf. apply hasPlugin_false in Hbefore.
      rewrite std_map_insert_fresh by done. by rewrite lookup_insert_ne.
Qed.

(** X9: in a reachable state, a name that [loadPlugins()] registers gets,
    as its type, the value of the parameter [<name>.type] at the time of
    the call, or the empty string when that parameter has no value:
    [getType] gives the configured type back. *)
Theorem loadPlugins_records_configured_type s name :
  reachable s ->
  hasPlugin name (self s) = false ->
  hasPlugin name (self (loadPlugins s).2) = true ->
  getType name (self (loadPlugins s).2) =
    Returns (default "" (string_parameters (node s) !! (name +:+ ".type"))).
Proof.
  intros Hs%reachable_consistent Hbefore Hafter.
  fold (type_of_name s name). unfold getType.
  destruct (configured_names s) as [|n l] eqn:Hl.
  { rewrite loadPlugins_unfold, Hl in Hafter. cbn in Hafter. congruence. }
  rewrite loadPlugins_state in Hafter |- * by by rewrite Hl.
  by rewrite (load_loop_new_type _ _ _ Hs Hbefore Hafter).
Qed.

Lemma same_view_step s s' m n w evs :
  history (mkState m n w (history s ++ evs)) = history s ++ evs /\
  history (mkState m n w (history s' ++ evs)) = history s' ++ evs.
Proof. done. Qed.

Lemma load_one_same_view s s' name :
  same_view s s' ->
  (load_one name s).1 = (load_one name s').1 /\
  same_view (load_one name s).2 (load_one name s').2 /\
  exists evs,
    history (load_one name s).2 = history s ++ evs /\
    history (load_one name s').2 = history s' ++ evs.
Proof.
  intros (Hself & Hn & Hw).
  assert (type_of_name s name = type_of_name s' name) as Hty.
  { by apply type_of_name_node. }
  destruct (load_one_cases s' name) as [Hf|w1 Hf Hl|p w1 w2 Hf Hl Hi|p w1 w2 Hf Hl Hi];
    rewrite <- Hself, <- ?Hw, <- ?Hn, <- ?Hty in *.
  - rewrite load_one_registered by done.
    split_and!; [done | done | eexists; apply same_view_step].
  - erewrite load_one_factory_miss by done.
    split_and!; [done | done | eexists; apply same_view_step].
  - erewrite load_one_init_failure by done.
    split_and!; [done | done | eexists; apply same_view_step].
  - erewrite load_one_admitted by done.
    split_and!; [done | done | eexists; apply same_view_step].
Qed.

Lemma load_loop_same_view l s s' :
  same_view s s' ->
  (load_loop l s).1 = (load_loop l s').1 /\
  same_view (load_loop l s).2 (load_loop l s').2 /\
  exists evs,
    history (load_loop l s).2 = history s ++ evs /\
    history (load_loop l s').2 = history s' ++ evs.
Proof.
  revert s s'. induction l as [|n l IH]; intros s s' Hsim.
  { split_and!; [done | done |]. exists []. by rewrite !app_nil_r. }
  rewrite !load_loop_cons.
  destruct (load_one_same_view s s' n Hsim) as (Hr & Hs & evs1 & H1 & H1').
  rewrite Hr. destruct (load_one n s').1; cbn [fst snd].
  - split_and!; [done | done | by exists evs1].
  - destruct (IH _ _ Hs) as (Hr2 & Hs2 & evs2 & H2 & H2').
    split_and!; [done | done |]. exists (evs1 ++ evs2).
    by rewrite H2, H2', H1, H1', <- !app_assoc.
Qed.

(** X10: [getPlugin()] has no effect on what [loadPlugins()] does next:
    called after [getPlugin(name)], [loadPlugins()] returns the same
    boolean, leaves the same manager and the same world, and produces the
    same events as it would have without that call. *)
Theorem getPlugin_does_not_affect_loading s name :
  (loadPlugins (getPlugin name s).2).1 = (loadPlugins s).1 /\
  self (loadPlugins (getPlugin name s).2).2 = self (loadPlugins s).2 /\
  world (loadPlugins (getPlugin name s).2).2 = world (loadPlugins s).2 /\
  exists evs,
    history (loadPlugins (getPlugin name s).2).2 =
      history (getPlugin name s).2 ++ evs /\
    history (loadPlugins s).2 = history s ++ evs.
Proof.
  assert (same_view (getPlugin name s).2 s) as Hsim.
  { rewrite getPlugin_unfold. by destruct (plugins_ (self s) !! name). }
  set (s1 := (getPlugin name s).2) in *.
  pose proof Hsim as (Hself & Hn & Hw).
  assert (configured_names s1 = configured_names s) as Hnames.
  { unfold configured_names. by rewrite Hself, Hn. }
  rewrite !loadPlugins_unfold, Hnames, Hself, Hn, Hw.
  destruct (vector_empty _); cbn [fst snd].
  { split_and!; [done | done | done |]. by eexists. }
  destruct (load_loop_same_view (configured_names s) s1 s Hsim)
    as (Hr & (Hs2 & _ & Hw2) & evs & H1 & H2).
  rewrite Hr. destruct (load_loop _ s).1; cbn [fst snd];
    rewrite ?Hs2; split_and!; try done; by exists evs.
Qed.

End Loading.

(** ** The robot simulator: parameters *)

Section SimulatorParameters.
Import RobotSimulator.
Context `{tf2 : Tf2}.
Implicit Types (r : Simulator) (c : Config) (p : rclcpp_Parameter).

Lemma set_parameters_app l1 l2 c :
  set_parameters (l1 ++ l2) c =
    match set_parameters l1 c with
    | (Value _, c1) => set_parameters l2 c1
    | (ParameterTypeException, c1) => (ParameterTypeException, c1)
    end.
Proof.
  revert c. induction l1 as [|p l1 IH]; intros c; [done|]. cbn.
  destruct (set_one_parameter p c); [apply IH | done].
Qed.

Lemma last_value_snoc name l p :
  last_value name (l ++ [p]) =
    if String.eqb (get_name p) name then Some (get_value p) else last_value name l.
Proof.
  unfold last_value. rewrite List.filter_app. cbn.
  destruct (String.eqb (get_name p) name).
  - rewrite fmap_app. apply last_snoc.
  - by rewrite app_nil_r.
Qed.

Lemma set_one_parameter_well_typed p c :
  well_typed p = true ->
  set_one_parameter p c = Value (config_after [p] c).
Proof.
  destruct p as [name v], c as [stuck parent robot].
  unfold well_typed, set_one_parameter, config_after, last_value. cbn.
  destruct (String.eqb name "is_robot_stuck") eqn:E1.
  { apply String.eqb_eq in E1 as ->. by destruct v. }
  destruct (String.eqb name "parent_frame_id") eqn:E2.
  { apply String.eqb_eq in E2 as ->. by destruct v. }
  destruct (String.eqb name "robot_frame_id") eqn:E3.
  { apply String.eqb_eq in E3 as ->. by destruct v. }
  done.
Qed.

Lemma config_after_snoc l p c :
  well_typed p = true ->
  config_after (l ++ [p]) c = config_after [p] (config_after l c).
Proof.
  destruct p as [name v]. unfold well_typed, config_after.
  rewrite !last_value_snoc. unfold last_value. cbn.
  destruct (String.eqb name "is_robot_stuck") eqn:E1.
  { apply String.eqb_eq in E1 as ->. by destruct v. }
  destruct (String.eqb name "parent_frame_id") eqn:E2.
  { apply String.eqb_eq in E2 as ->. by destruct v. }
  destruct (String.eqb name "robot_frame_id") eqn:E3.
  { apply String.eqb_eq in E3 as ->. by destruct v. }
  done.
Qed.

Lemma set_parameters_well_typed l c :
  forallb well_typed l = true ->
  set_parameters l c = (Value tt, config_after l c).
Proof.
  induction l as [|p l IH] using rev_ind; intros Hl.
  { by destruct c. }
  rewrite forallb_app in Hl. apply andb_prop in Hl as [Hl Hp].
  cbn in Hp. rewrite andb_true_r in Hp.
  rewrite set_parameters_app, IH by done. cbn.
  rewrite set_one_parameter_well_typed by done.
  by rewrite config_after_snoc.
Qed.

Lemma set_one_parameter_ill_typed p c :
  well_typed p = false -> set_one_parameter p c = ParameterTypeException.
Proof.
  destruct p as [name v]. unfold well_typed, set_one_parameter. cbn.
  destruct (String.eqb name "is_robot_stuck"); [by destruct v|].
  destruct (String.eqb name "parent_frame_id"); [by destruct v|].
  destruct (String.eqb name "robot_frame_id"); [by destruct v | done].
Qed.

(** X11: when every parameter of the list that the callback looks at has
    the type it asks for, [setParametersCallback] accepts the list
    ([successful] with the reason "success") and leaves in each field of
    [config_] the value of the last parameter of that name, or the old
    value when the list has none; nothing else of the node changes. *)
Theorem setParametersCallback_last_value_wins parameters r :
  forallb well_typed parameters = true ->
  setParametersCallback parameters r =
    (Value (mkSetParametersResult true "success"),
     mkSimulator
       (mkConfig
          (bool_or (is_robot_stuck (config_ r))
             (last_value "is_robot_stuck" parameters))
          (string_or (parent_frame_id (config_ r))
             (last_value "parent_frame_id" parameters))
          (string_or (robot_frame_id (config_ r))
             (last_value "robot_frame_id" parameters)))
       (trf_parent_robot_ r) (current_velocity_ r) (outputs r)).
Proof.
  intros Hl. unfold setParametersCallback.
  by rewrite set_parameters_well_typed.
Qed.

(** X12: a parameter that the callback looks at and that has another type
    than the one it asks for makes [setParametersCallback] throw at that
    parameter: what the parameters before it have set stays in [config_],
    and the parameters after it are not looked at. *)
Theorem setParametersCallback_throws_midway before bad after r :
  forallb well_typed before = true ->
  well_typed bad = false ->
  setParametersCallback (before ++ bad :: after) r =
    (ParameterTypeException, (setParametersCallback before r).2).
Proof.
  intros Hbefore Hbad. unfold setParametersCallback.
  rewrite set_parameters_app, set_parameters_well_typed by done.
  cbn. by rewrite set_one_parameter_ill_typed.
Qed.

(** X13: parameters of other names than the three of [config_] are
    ignored: the callback does on a list what it does on the list without
    them. *)
Theorem setParametersCallback_ignores_other_names parameters r :
  setParametersCallback parameters r =
    setParametersCallback
      (List.filter (fun p => is_config_name (get_name p)) parameters) r.
Proof.
  unfold setParametersCallback. f_equal.
  assert (forall c, set_parameters parameters c =
            set_parameters
              (List.filter (fun p => is_config_name (get_name p)) parameters) c)
    as ->; [|done].
  induction parameters as [|p l IH]; intros c; [done|]. cbn.
  unfold is_config_name at 1, set_one_parameter at 1.
  destruct (String.eqb (get_name p) "is_robot_stuck") eqn:E1; cbn.
  { unfold set_one_parameter. rewrite E1. by destruct (as_bool p). }
  destruct (String.eqb (get_name p) "parent_frame_id") eqn:E2; cbn.
  { unfold set_one_parameter. rewrite E1, E2. by destruct (as_string p). }
  destruct (String.eqb (get_name p) "robot_frame_id") eqn:E3; cbn.
  { unfold set_one_parameter. rewrite E1, E2, E3. by destruct (as_string p). }
  apply IH.
Qed.

End SimulatorParameters.

(** ** The robot simulator: motion and publications *)

Section SimulatorRuns.
Import RobotSimulator.
Context `{tf2 : Tf2}.
Implicit Types (r : Simulator) (c : Config) (out : list Output).

Arguments continuouslyUpdateRobotPose : simpl never.
Arguments sent_transforms : simpl never.
Arguments published_odometry : simpl never.
Arguments created_timers : simpl never.

Lemma in_threes_app parent child out1 out2 :
  in_threes parent child out1 -> in_threes parent child out2 ->
  in_threes parent child (out1 ++ out2).
Proof.
  unfold in_threes, stamps_of_transforms, stamps_of_odometry,
    sent_transforms, published_odometry, created_timers.
  intros (Hs1 & Ht1 & Hf1) (Hs2 & Ht2 & Hf2).
  rewrite !omap_app, !fmap_app, length_app, replicate_add.
  split_and!; [congruence | congruence | by apply Forall_app].
Qed.

Lemma in_threes_nil parent child : in_threes parent child [].
Proof. by split_and!. Qed.

(** What one pose update leaves and sends. *)
Lemma update_members t r :
  config_ (continuouslyUpdateRobotPose t r) = config_ r /\
  current_velocity_ (continuouslyUpdateRobotPose t r) = current_velocity_ r /\
  header (trf_parent_robot_ (continuouslyUpdateRobotPose t r)) =
    mkHeader t (frame_id (header (trf_parent_robot_ r))) /\
  child_frame_id (trf_parent_robot_ (continuouslyUpdateRobotPose t r)) =
    child_frame_id (trf_parent_robot_ r).
Proof.
  unfold continuouslyUpdateRobotPose.
  by destruct (Bool.eqb (is_robot_stuck (config_ r)) false).
Qed.

Lemma update_outputs t r :
  exists logged odom,
    outputs (continuouslyUpdateRobotPose t r) =
      outputs r ++ logged ++
      [SentTransform (trf_parent_robot_ (continuouslyUpdateRobotPose t r));
       PublishedOdometry odom; CreatedWallTimer 10] /\
    (logged = [] \/ logged = [WarnThrottleRobotStuck]) /\
    odom_header odom = mkHeader t (parent_frame_id (config_ r)) /\
    odom_child_frame_id odom = robot_frame_id (config_ r).
Proof.
  unfold continuouslyUpdateRobotPose.
  destruct (Bool.eqb (is_robot_stuck (config_ r)) false); cbn.
  - eexists [], _. split_and!; [done | by left | done | done].
  - eexists [_], _. split_and!; [done | by right | done | done].
Qed.

Lemma update_stuck t r :
  is_robot_stuck (config_ r) = true ->
  transform (trf_parent_robot_ (continuouslyUpdateRobotPose t r)) =
    transform (trf_parent_robot_ r).
Proof. intros Hstuck. unfold continuouslyUpdateRobotPose. by rewrite Hstuck. Qed.

Lemma update_in_threes t r :
  exists new,
    outputs (continuouslyUpdateRobotPose t r) = outputs r ++ new /\
    in_threes (frame_id (header (trf_parent_robot_ r)))
      (child_frame_id (trf_parent_robot_ r)) new /\
    sent_transforms new = [trf_parent_robot_ (continuouslyUpdateRobotPose t r)].
Proof.
  destruct (update_outputs t r) as (logged & odom & Hout & Hlog & Hoh & Hoc).
  destruct (update_members t r) as (_ & _ & Hh & Hc).
  generalize dependent (continuouslyUpdateRobotPose t r). intros r' Hout Hh Hc.
  eexists. split; [exact Hout|].
  unfold in_threes, stamps_of_transforms, stamps_of_odometry,
    sent_transforms, published_odometry, created_timers.
  destruct Hlog as [-> | ->]; cbn; rewrite Hh, Hoh; cbn;
    (split_and!; [done | done | | done]);
    (constructor; [by rewrite Hh, Hc | constructor]).
Qed.

(** What any operation on the node adds to its outputs, and that it keeps
    the frame ids of [trf_parent_robot_]. *)
Lemma exec_op_in_threes (op : Op) r :
  (exists new,
     outputs (exec_op op r) = outputs r ++ new /\
     in_threes (frame_id (header (trf_parent_robot_ r)))
       (child_frame_id (trf_parent_robot_ r)) new) /\
  frame_id (header (trf_parent_robot_ (exec_op op r))) =
    frame_id (header (trf_parent_robot_ r)) /\
  child_frame_id (trf_parent_robot_ (exec_op op r)) =
    child_frame_id (trf_parent_robot_ r).
Proof.
  destruct op as [t|vel t|request response t1 t2|parameters]; cbn [exec_op].
  - destruct (update_in_threes t r) as (new & Hout & Hnew & _).
    destruct (update_members t r) as (_ & _ & Hh & Hc).
    split_and!; [by exists new | by rewrite Hh | done].
  - unfold velocityCallback. destruct (negb _); cbn.
    + split_and!; [|done|done]. eexists. split; [done|].
      split_and!; try done; constructor.
    + destruct (update_in_threes t r) as (new & Hout & Hnew & _).
      destruct (update_members t r) as (_ & _ & Hh & Hc).
      split_and!; [by exists new | by rewrite Hh | done].
  - unfold setStateCallback. destruct (negb _); cbn.
    { split_and!; [|done|done]. eexists. split; [done|].
      split_and!; try done; constructor. }
    destruct (update_in_threes t1 r) as (new1 & Hout1 & Hnew1 & _).
    destruct (update_members t1 r) as (_ & _ & Hh1 & Hc1).
    assert (forall velocity,
      (exists new,
         outputs (continuouslyUpdateRobotPose t2
           (mkSimulator (config_ (continuouslyUpdateRobotPose t1 r))
              (mkTransformStamped
                 (header (trf_parent_robot_ (continuouslyUpdateRobotPose t1 r)))
                 (child_frame_id (trf_parent_robot_ (continuouslyUpdateRobotPose t1 r)))
                 (transform (request_transform request)))
              velocity (outputs (continuouslyUpdateRobotPose t1 r)))) =
           outputs r ++ new /\
         in_threes (frame_id (header (trf_parent_robot_ r)))
           (child_frame_id (trf_parent_robot_ r)) new) /\
      frame_id (header (trf_parent_robot_ (continuouslyUpdateRobotPose t2
           (mkSimulator (config_ (continuouslyUpdateRobotPose t1 r))
              (mkTransformStamped
                 (header (trf_parent_robot_ (continuouslyUpdateRobotPose t1 r)))
                 (child_frame_id (trf_parent_robot_ (continuouslyUpdateRobotPose t1 r)))
                 (transform (request_transform request)))
              velocity (outputs (continuouslyUpdateRobotPose t1 r)))))) =
        frame_id (header (trf_parent_robot_ r)) /\
      child_frame_id (trf_parent_robot_ (continuouslyUpdateRobotPose t2
           (mkSimulator (config_ (continuouslyUpdateRobotPose t1 r))
              (mkTransformStamped
                 (header (trf_parent_robot_ (continuouslyUpdateRobotPose t1 r)))
                 (child_frame_id (trf_parent_robot_ (continuouslyUpdateRobotPose t1 r)))
                 (transform (request_transform request)))
              velocity (outputs (continuouslyUpdateRobotPose t1 r))))) =
        child_frame_id (trf_parent_robot_ r)) as Haccepted.
    { intros velocity.
      generalize dependent (continuouslyUpdateRobotPose t1 r).
      intros r1 Hout1 Hh1 Hc1.
      match goal with
      | |- context [continuouslyUpdateRobotPose t2 ?r2] =>
          destruct (update_in_threes t2 r2) as (new2 & Hout2 & Hnew2 & _);
          destruct (update_members t2 r2) as (_ & _ & Hh2 & Hc2);
          rewrite Hout2, Hh2, Hc2
      end.
      cbn in *. rewrite Hh1, Hc1 in *. cbn in *.
      split_and!; [|done|done].
      exists (new1 ++ new2).
      split; [by rewrite Hout1, <- app_assoc | by apply in_threes_app]. }
    destruct (set_velocity request); cbn; [destruct (negb _); cbn|].
    + split_and!; [|done|done]. eexists. split; [done|].
      split_and!; try done; constructor.
    + apply Haccepted.
    + apply Haccepted.
  - unfold setParametersCallback. destruct (set_parameters _ _). cbn.
    split_and!; [|done|done]. exists []. rewrite app_nil_r.
    split; [done | apply in_threes_nil].
Qed.

Lemma exec_ops_in_threes (ops : list Op) r :
  (exists new,
     outputs (exec_ops ops r) = outputs r ++ new /\
     in_threes (frame_id (header (trf_parent_robot_ r)))
       (child_frame_id (trf_parent_robot_ r)) new) /\
  frame_id (header (trf_parent_robot_ (exec_ops ops r))) =
    frame_id (header (trf_parent_robot_ r)) /\
  child_frame_id (trf_parent_robot_ (exec_ops ops r)) =
    child_frame_id (trf_parent_robot_ r).
Proof.
  revert r. induction ops as [|op ops IH]; intros r.
  { split_and!; [|done|done]. exists []. rewrite app_nil_r.
    split; [done | apply in_threes_nil]. }
  cbn [exec_ops foldl]. fold (exec_ops ops (exec_op op r)).
  destruct (exec_op_in_threes op r) as ((new1 & Hout1 & Hnew1) & Hf1 & Hc1).
  destruct (IH (exec_op op r)) as ((new2 & Hout2 & Hnew2) & Hf2 & Hc2).
  rewrite Hf1, Hc1 in *.
  split_and!; [|done|done].
  exists (new1 ++ new2). split.
  - by rewrite Hout2, Hout1, <- app_assoc.
  - by apply in_threes_app.
Qed.

Lemma construct_in_threes declared t_stamp t_first :
  in_threes (parent_frame_id declared) (robot_frame_id declared)
    (outputs (construct declared t_stamp t_first)) /\
  frame_id (header (trf_parent_robot_ (construct declared t_stamp t_first))) =
    parent_frame_id declared /\
  child_frame_id (trf_parent_robot_ (construct declared t_stamp t_first)) =
    robot_frame_id declared /\
  sent_transforms (outputs (construct declared t_stamp t_first)) <> [].
Proof.
  unfold construct.
  match goal with
  | |- context [continuouslyUpdateRobotPose _ ?r0] =>
      destruct (update_in_threes t_first r0) as (new & Hout & Hnew & Hsent);
      destruct (update_members t_first r0) as (_ & _ & Hh & Hc)
  end.
  rewrite Hout, Hh, Hc. cbn in *.
  split_and!; [done | done | done |]. by rewrite Hsent.
Qed.

(** X14: every transform sent, odometry message published and timer
    created by the node comes from a pose update, which does the three
    together: in every run from the construction, the transforms and the
    odometry messages carry the same stamps in the same order, there is one
    timer of 10 ms for each of them, and there is at least one of each. *)
Theorem publications_come_in_threes declared t_stamp t_first (ops : list Op) :
  stamps_of_transforms (outputs (exec_ops ops (construct declared t_stamp t_first))) =
    stamps_of_odometry (outputs (exec_ops ops (construct declared t_stamp t_first))) /\
  created_timers (outputs (exec_ops ops (construct declared t_stamp t_first))) =
    replicate
      (length (sent_transforms
                 (outputs (exec_ops ops (construct declared t_stamp t_first))))) 10 /\
  sent_transforms (outputs (exec_ops ops (construct declared t_stamp t_first))) <> [].
Proof.
  destruct (construct_in_threes declared t_stamp t_first) as (H0 & Hf & Hc & Hne).
  destruct (exec_ops_in_threes ops (construct declared t_stamp t_first))
    as ((new & Hout & Hnew) & _ & _).
  rewrite Hf, Hc in Hnew.
  destruct (in_threes_app _ _ _ _ H0 Hnew) as (Hs & Ht & _).
  rewrite Hout. split_and!; [done | done |].
  unfold sent_transforms in *. rewrite omap_app.
  intros [Hnil _]%app_eq_nil. done.
Qed.

(** X15: the frame ids of the transform the node sends are those of the
    construction: in every run from the construction, whatever parameters
    have been set since, [trf_parent_robot_] and every transform sent carry
    the parent and robot frame ids the node was constructed with. *)
Theorem sent_frame_ids_are_those_of_construction
  declared t_stamp t_first (ops : list Op) :
  frame_id (header (trf_parent_robot_
      (exec_ops ops (construct declared t_stamp t_first)))) =
    parent_frame_id declared /\
  child_frame_id (trf_parent_robot_
      (exec_ops ops (construct declared t_stamp t_first))) =
    robot_frame_id declared /\
  Forall (fun trf => frame_id (header trf) = parent_frame_id declared /\
                     child_frame_id trf = robot_frame_id declared)
    (sent_transforms (outputs (exec_ops ops (construct declared t_stamp t_first)))).
Proof.
  destruct (construct_in_threes declared t_stamp t_first) as (H0 & Hf & Hc & _).
  destruct (exec_ops_in_threes ops (construct declared t_stamp t_first))
    as ((new & Hout & Hnew) & Hf' & Hc').
  rewrite Hf, Hc in *.
  destruct (in_threes_app _ _ _ _ H0 Hnew) as (_ & _ & Hall).
  rewrite Hout. by split_and!.
Qed.

(** X16: the odometry follows the parameters, the transform does not:
    after parameters of the right types have been set, in a run from the
    construction, the next pose update publishes an odometry message with
    the frame ids the parameters have set last, and sends a transform with
    the frame ids of the construction, both with the stamp of the
    update. *)
Theorem odometry_follows_parameters
  declared t_stamp t_first (ops : list Op) parameters t_now :
  forallb well_typed parameters = true ->
  exists trf odom,
    outputs (continuouslyUpdateRobotPose t_now
       (setParametersCallback parameters
          (exec_ops ops (construct declared t_stamp t_first))).2) =
      outputs (exec_ops ops (construct declared t_stamp t_first)) ++
      (if bool_or (is_robot_stuck
                     (config_ (exec_ops ops (construct declared t_stamp t_first))))
            (last_value "is_robot_stuck" parameters)
       then [WarnThrottleRobotStuck] else []) ++
      [SentTransform trf; PublishedOdometry odom; CreatedWallTimer 10] /\
    header trf = mkHeader t_now (parent_frame_id declared) /\
    child_frame_id trf = robot_frame_id declared /\
    odom_header odom =
      mkHeader t_now
        (string_or
           (parent_frame_id
              (config_ (exec_ops ops (construct declared t_stamp t_first))))
           (last_value "parent_frame_id" parameters)) /\
    odom_child_frame_id odom =
      string_or
        (robot_frame_id
           (config_ (exec_ops ops (construct declared t_stamp t_first))))
        (last_value "robot_frame_id" parameters).
Proof.
  intros Hl.
  destruct (construct_in_threes declared t_stamp t_first) as (_ & Hf & Hc & _).
  destruct (exec_ops_in_threes ops (construct declared t_stamp t_first))
    as (_ & Hf' & Hc').
  rewrite Hf in Hf'. rewrite Hc in Hc'.
  generalize dependent (exec_ops ops (construct declared t_stamp t_first)).
  intros r Hf' Hc'.
  unfold setParametersCallback.
  rewrite (set_parameters_well_typed _ _ Hl). cbn [snd].
  unfold continuouslyUpdateRobotPose, config_after. cbn.
  rewrite Hf', Hc'.
  destruct (bool_or _ _); cbn; by eexists _, _.
Qed.

(** One operation that moves the robot, on a robot that is stuck. *)
Lemma exec_op_stuck (op : Op) r :
  is_robot_stuck (config_ r) = true ->
  is_motion op = true ->
  transform (trf_parent_robot_ (exec_op op r)) = transform (trf_parent_robot_ r) /\
  config_ (exec_op op r) = config_ r /\
  exists new,
    outputs (exec_op op r) = outputs r ++ new /\
    Forall (fun trf => transform trf = transform (trf_parent_robot_ r))
      (sent_transforms new) /\
    Forall (fun odom => odom_pose odom = unset_pose) (published_odometry new).
Proof.
  intros Hstuck Hop.
  assert (forall t,
    transform (trf_parent_robot_ (continuouslyUpdateRobotPose t r)) =
      transform (trf_parent_robot_ r) /\
    config_ (continuouslyUpdateRobotPose t r) = config_ r /\
    exists new,
      outputs (continuouslyUpdateRobotPose t r) = outputs r ++ new /\
      Forall (fun trf => transform trf = transform (trf_parent_robot_ r))
        (sent_transforms new) /\
      Forall (fun odom => odom_pose odom = unset_pose) (published_odometry new))
    as Hupdate.
  { intros t. unfold continuouslyUpdateRobotPose. rewrite Hstuck. cbn.
    split_and!; [done | done |]. eexists. split; [done|].
    split; by repeat constructor. }
  destruct op as [t|vel t| |]; try done; cbn [exec_op].
  - apply Hupdate.
  - unfold velocityCallback. destruct (negb _).
    + cbn. split_and!; [done | done |]. eexists. split; [done|].
      split; constructor.
    + destruct (Hupdate t) as (Htr & Hcfg & new & Hout & Hall).
      cbn. split_and!; [done | done | by exists new].
Qed.

(** X17: a robot that is stuck does not move: as long as only the timer
    fires and velocity messages arrive, [config_] and the transform of
    [trf_parent_robot_] stay what they are, every transform sent carries
    that same transform, and every odometry message published carries the
    pose of an empty message. *)
Theorem stuck_robot_keeps_its_pose (ops : list Op) r :
  is_robot_stuck (config_ r) = true ->
  forallb is_motion ops = true ->
  transform (trf_parent_robot_ (exec_ops ops r)) = transform (trf_parent_robot_ r) /\
  config_ (exec_ops ops r) = config_ r /\
  exists new,
    outputs (exec_ops ops r) = outputs r ++ new /\
    Forall (fun trf => transform trf = transform (trf_parent_robot_ r))
      (sent_transforms new) /\
    Forall (fun odom => odom_pose odom = unset_pose) (published_odometry new).
Proof.
  revert r. induction ops as [|op ops IH]; intros r Hstuck Hops.
  { split_and!; [done | done |]. exists []. rewrite app_nil_r.
    split_and!; [done | constructor | constructor]. }
  cbn in Hops. apply andb_prop in Hops as [Hop Hops].
  cbn [exec_ops foldl]. fold (exec_ops ops (exec_op op r)).
  destruct (exec_op_stuck op r Hstuck Hop)
    as (Htr1 & Hcfg1 & new1 & Hout1 & Hsent1 & Hodom1).
  destruct (IH (exec_op op r)) as (Htr2 & Hcfg2 & new2 & Hout2 & Hsent2 & Hodom2);
    [by rewrite Hcfg1 | done |].
  rewrite Htr1 in *.
  split_and!; [congruence | congruence |].
  exists (new1 ++ new2). split_and!.
  - by rewrite Hout2, Hout1, <- app_assoc.
  - unfold sent_transforms in *. rewrite omap_app. by apply Forall_app.
  - unfold published_odometry in *. rewrite omap_app. by apply Forall_app.
Qed.

(** The operations look at the members only: on two simulators with the
    same members they leave the same members and add the same outputs. *)
Lemma update_same_members t r r' :
  same_members r r' ->
  same_members (continuouslyUpdateRobotPose t r) (continuouslyUpdateRobotPose t r') /\
  exists new,
    outputs (continuouslyUpdateRobotPose t r) = outputs r ++ new /\
    outputs (continuouslyUpdateRobotPose t r') = outputs r' ++ new.
Proof.
  destruct r as [c trf v out], r' as [c' trf' v' out'].
  intros (Hc & Htrf & Hv). cbn in Hc, Htrf, Hv. subst c' trf' v'.
  unfold continuouslyUpdateRobotPose, same_members. cbn.
  destruct (Bool.eqb (is_robot_stuck c) false); cbn;
    (split; [done|]); by eexists.
Qed.

Lemma exec_op_same_members (op : Op) r r' :
  same_members r r' ->
  same_members (exec_op op r) (exec_op op r') /\
  exists new,
    outputs (exec_op op r) = outputs r ++ new /\
    outputs (exec_op op r') = outputs r' ++ new.
Proof.
  intros Hsame. pose proof Hsame as (Hc & Htrf & Hv).
  destruct op as [t|vel t|request response t1 t2|parameters]; cbn [exec_op].
  - by apply update_same_members.
  - unfold velocityCallback. rewrite <- Hc.
    destruct (negb _).
    + unfold same_members. cbn. rewrite <- Htrf, <- Hv.
      split; [done | by eexists].
    + destruct (update_same_members t r r' Hsame) as ((Hc1 & Htrf1 & _) & new & H1 & H2).
      unfold same_members. cbn. split; [done | by exists new].
  - unfold setStateCallback. rewrite <- Hc.
    destruct (negb _).
    { unfold same_members. cbn. rewrite <- Htrf, <- Hv.
      split; [done | by eexists]. }
    destruct (_ && _).
    { unfold same_members. cbn. rewrite <- Htrf, <- Hv.
      split; [done | by eexists]. }
    cbn [snd].
    destruct (update_same_members t1 r r' Hsame)
      as ((Hc1 & Htrf1 & Hv1) & new1 & H1 & H1').
    match goal with
    | |- same_members (continuouslyUpdateRobotPose t2 ?a)
                      (continuouslyUpdateRobotPose t2 ?b) /\ _ =>
        destruct (update_same_members t2 a b) as (Hsame2 & new2 & H2 & H2')
    end.
    { unfold same_members. destruct (set_velocity request); cbn;
        by rewrite ?Hc1, ?Htrf1, ?Hv1. }
    split; [done|]. exists (new1 ++ new2).
    rewrite H2, H2'. destruct (set_velocity request); cbn;
      by rewrite H1, H1', <- !app_assoc.
  - unfold setParametersCallback. rewrite <- Hc.
    destruct (set_parameters _ _). unfold same_members. cbn.
    rewrite <- Htrf, <- Hv. split; [done|]. exists []. by rewrite !app_nil_r.
Qed.

Lemma exec_ops_same_members (ops : list Op) r r' :
  same_members r r' ->
  same_members (exec_ops ops r) (exec_ops ops r') /\
  exists new,
    outputs (exec_ops ops r) = outputs r ++ new /\
    outputs (exec_ops ops r') = outputs r' ++ new.
Proof.
  revert r r'. induction ops as [|op ops IH]; intros r r' Hsame.
  { split; [done|]. exists []. by rewrite !app_nil_r. }
  cbn [exec_ops foldl].
  fold (exec_ops ops (exec_op op r)). fold (exec_ops ops (exec_op op r')).
  destruct (exec_op_same_members op r r' Hsame) as (Hsame1 & new1 & H1 & H1').
  destruct (IH _ _ Hsame1) as (Hsame2 & new2 & H2 & H2').
  split; [done|]. exists (new1 ++ new2).
  by rewrite H2, H2', H1, H1', <- !app_assoc.
Qed.

(** X18: a velocity message in another frame than [robot_frame_id] is
    dropped for good: it adds one error to the outputs and nothing else,
    and whatever happens to the node afterwards leaves the same members and
    adds the same outputs as if the message had not come. *)
Theorem dropped_velocity_has_no_effect vel t_now (ops : list Op) r :
  frame_id (twist_header vel) <> robot_frame_id (config_ r) ->
  config_ (exec_ops ops (velocityCallback vel t_now r)) = config_ (exec_ops ops r) /\
  trf_parent_robot_ (exec_ops ops (velocityCallback vel t_now r)) =
    trf_parent_robot_ (exec_ops ops r) /\
  current_velocity_ (exec_ops ops (velocityCallback vel t_now r)) =
    current_velocity_ (exec_ops ops r) /\
  exists new,
    outputs (exec_ops ops (velocityCallback vel t_now r)) =
      outputs r ++
      [ErrorDroppingVelocity (robot_frame_id (config_ r)) (frame_id (twist_header vel))]
      ++ new /\
    outputs (exec_ops ops r) = outputs r ++ new.
Proof.
  intros Hframe%String.eqb_neq.
  assert (velocityCallback vel t_now r =
    mkSimulator (config_ r) (trf_parent_robot_ r) (current_velocity_ r)
      (outputs r ++ [ErrorDroppingVelocity (robot_frame_id (config_ r))
                       (frame_id (twist_header vel))])) as ->.
  { unfold velocityCallback. by rewrite Hframe. }
  match goal with
  | |- context [exec_ops ops ?r1] =>
      lazymatch r1 with
      | mkSimulator _ _ _ _ =>
          destruct (exec_ops_same_members ops r1 r) as ((Hc & Htrf & Hv) & new & H1 & H2);
          [done|]
      end
  end.
  split_and!; [done | done | done |]. exists new.
  split; [|done]. rewrite H1. cbn. by rewrite <- app_assoc.
Qed.

(** X19: a state request whose transform is in another frame than
    [parent_frame_id], or which sets a velocity given in another frame than
    [robot_frame_id], is refused: the response says [success = false], and
    exactly one output is added, the error of the check that failed (the
    one on the parent frame comes first), with the expected and the given
    frame; whatever happens to the node afterwards leaves the same members
    and adds the same outputs as if the request had not come. *)
Theorem refused_state_has_no_effect request response t_first t_second
  (ops : list Op) r :
  frame_id (header (request_transform request)) <> parent_frame_id (config_ r) \/
  (set_velocity request = true /\
   frame_id (twist_header (velocity_robot request)) <> robot_frame_id (config_ r)) ->
  (setStateCallback request response t_first t_second r).1 = mkResponse false /\
  success (setStateCallback request response t_first t_second r).1 = false /\
  outputs (setStateCallback request response t_first t_second r).2 =
    outputs r ++
    [if String.eqb (frame_id (header (request_transform request)))
          (parent_frame_id (config_ r))
     then ErrorSetStateRobotFrame (robot_frame_id (config_ r))
            (frame_id (twist_header (velocity_robot request)))
     else ErrorSetStateParentFrame (parent_frame_id (config_ r))
            (frame_id (header (request_transform request)))] /\
  config_ (exec_ops ops (setStateCallback request response t_first t_second r).2) =
    config_ (exec_ops ops r) /\
  trf_parent_robot_
    (exec_ops ops (setStateCallback request response t_first t_second r).2) =
    trf_parent_robot_ (exec_ops ops r) /\
  current_velocity_
    (exec_ops ops (setStateCallback request response t_first t_second r).2) =
    current_velocity_ (exec_ops ops r) /\
  exists new,
    outputs (exec_ops ops (setStateCallback request response t_first t_second r).2) =
      outputs r ++
      [if String.eqb (frame_id (header (request_transform request)))
            (parent_frame_id (config_ r))
       then ErrorSetStateRobotFrame (robot_frame_id (config_ r))
              (frame_id (twist_header (velocity_robot request)))
       else ErrorSetStateParentFrame (parent_frame_id (config_ r))
              (frame_id (header (request_transform request)))] ++ new /\
    outputs (exec_ops ops r) = outputs r ++ new.
Proof.
  intros Hframe.
  assert (
    setStateCallback request response t_first t_second r =
      (mkResponse false,
       mkSimulator (config_ r) (trf_parent_robot_ r) (current_velocity_ r)
         (outputs r ++
          [if String.eqb (frame_id (header (request_transform request)))
                (parent_frame_id (config_ r))
           then ErrorSetStateRobotFrame (robot_frame_id (config_ r))
                  (frame_id (twist_header (velocity_robot request)))
           else ErrorSetStateParentFrame (parent_frame_id (config_ r))
                  (frame_id (header (request_transform request)))]))) as ->.
  { unfold setStateCallback.
    destruct (String.eqb (frame_id (header (request_transform request)))
                (parent_frame_id (config_ r))) eqn:Hparent; cbn [negb]; [|done].
    destruct Hframe as [Hframe%String.eqb_neq | [-> Hframe%String.eqb_neq]].
    { congruence. }
    by rewrite Hframe. }
  cbn [fst snd success outputs].
  match goal with
  | |- context [exec_ops ops ?r1] =>
      lazymatch r1 with
      | mkSimulator _ _ _ _ =>
          destruct (exec_ops_same_members ops r1 r) as ((Hc & Htrf & Hv) & new & H1 & H2);
          [done|]
      end
  end.
  split_and!; [done | done | done | done | done | done |]. exists new.
  split; [|done]. rewrite H1. cbn. by rewrite <- app_assoc.
Qed.

(** X20: a state request in the right frames is carried out, and the
    response is given back as it came in ([success] is not written): the
    velocity is the requested one if the request sets it and the old one
    otherwise, [config_] and the frame ids of [trf_parent_robot_] are kept,
    the stamp is the one of the second pose update, and on a robot that is
    stuck the pose is exactly the requested transform. *)
Theorem accepted_state_is_set request response t_first t_second r :
  frame_id (header (request_transform request)) = parent_frame_id (config_ r) ->
  (set_velocity request = true ->
   frame_id (twist_header (velocity_robot request)) = robot_frame_id (config_ r)) ->
  (setStateCallback request response t_first t_second r).1 = response /\
  config_ (setStateCallback request response t_first t_second r).2 = config_ r /\
  current_velocity_ (setStateCallback request response t_first t_second r).2 =
    (if set_velocity request then twist (velocity_robot request)
     else current_velocity_ r) /\
  header (trf_parent_robot_ (setStateCallback request response t_first t_second r).2) =
    mkHeader t_second (frame_id (header (trf_parent_robot_ r))) /\
  child_frame_id
    (trf_parent_robot_ (setStateCallback request response t_first t_second r).2) =
    child_frame_id (trf_parent_robot_ r) /\
  length (sent_transforms
            (outputs (setStateCallback request response t_first t_second r).2)) =
    length (sent_transforms (outputs r)) + 2 /\
  (is_robot_stuck (config_ r) = true ->
   transform
     (trf_parent_robot_ (setStateCallback request response t_first t_second r).2) =
     transform (request_transform request)).
Proof.
  intros Hparent%String.eqb_eq Hrobot.
  assert (set_velocity request &&
          negb (String.eqb (frame_id (twist_header (velocity_robot request)))
                  (robot_frame_id (config_ r))) = false) as Hcheck.
  { destruct (set_velocity request); [|done]. cbn.
    apply negb_false_iff, String.eqb_eq. by apply Hrobot. }
  unfold setStateCallback. rewrite Hparent, Hcheck. cbn [negb fst snd].
  destruct (update_members t_first r) as (Hc1 & Hv1 & Hh1 & Hch1).
  destruct (update_in_threes t_first r) as (new1 & Hout1 & _ & Hsent1).
  generalize dependent (continuouslyUpdateRobotPose t_first r).
  intros [c1 [h1 ch1 tr1] v1 out1]. cbn. intros -> -> -> -> -> Hsent1.
  destruct (set_velocity request);
    cbn [config_ trf_parent_robot_ current_velocity_ outputs header
         child_frame_id transform].
  all: match goal with
       | |- context [continuouslyUpdateRobotPose _ (mkSimulator ?c ?trf ?v ?out)] =>
           destruct (update_members t_second (mkSimulator c trf v out))
             as (Hc2 & Hv2 & Hh2 & Hch2);
           destruct (update_in_threes t_second (mkSimulator c trf v out))
             as (new2 & Hout2 & _ & Hsent2);
           pose proof (update_stuck t_second (mkSimulator c trf v out)) as Hstuck2
       end;
    rewrite Hc2, Hv2, Hh2, Hch2, Hout2; cbn [frame_id];
    (split_and!; try done; try (intros Hstuck; by apply Hstuck2));
    cbn [outputs]; unfold sent_transforms in *;
    rewrite !omap_app, !length_app, Hsent1, Hsent2; cbn; lia.
Qed.

End SimulatorRuns.

(** ** The added properties, on the scenarios *)

Lemma reachable_second_refused : reachable second_refused.
Proof.
  exists "planners", counting_factory, picky_init,
    (scenario_node ["p1"; "p2"] [("p1", "tA"); ("p2", "tA")]), 0, [].
  reflexivity.
Defined.

(** After the first load "p1" is registered and still configured. *)
Lemma loadPlugins_registered_name_fails_witness :
  "p1" ∈ configured_names after_first_load /\
  hasPlugin "p1" (self after_first_load) = true /\
  (loadPlugins after_first_load).1 = false.
Proof.
  assert ("p1" ∈ configured_names after_first_load) as H1.
  { assert (configured_names after_first_load = ["p1"; "p2"]) as -> by run.
    apply list_elem_of_here. }
  assert (hasPlugin "p1" (self after_first_load) = true) as H2 by run.
  split_and!; [exact H1 | exact H2 |].
  exact (loadPlugins_registered_name_fails after_first_load "p1" H1 H2).
Defined.

(** The first call admits "p1" and returns [true]; the second fails. *)
Lemma loadPlugins_twice_fails_witness :
  plugins_ (self second_refused) = ∅ /\
  (loadPlugins second_refused).1 = true /\
  (loadPlugins (loadPlugins second_refused).2).1 = false.
Proof.
  assert (plugins_ (self second_refused) = ∅) as H1 by run.
  assert ((loadPlugins second_refused).1 = true) as H2 by run.
  split_and!; [exact H1 | exact H2 |].
  exact (loadPlugins_twice_fails second_refused H1 H2).
Defined.

(** "p1" is left from an earlier call; the only configured name, "p9", has
    a type the factory does not know; the call returns [true]. *)
Lemma loadPlugins_true_on_old_entries_witness :
  configured_names replaced_later = ["p9"] /\
  plugins_ (self replaced_later) <> ∅ /\
  hasPlugin "p9" (self (loadPlugins replaced_later).2) = false /\
  (loadPlugins replaced_later).1 = true.
Proof.
  assert (configured_names replaced_later = ["p9"]) as H0 by run.
  assert (configured_names replaced_later <> []) as H1 by run.
  assert ((load_loop (configured_names replaced_later) replaced_later).1 = None)
    as H2 by run.
  assert (plugins_ (self replaced_later) <> ∅) as H3 by run.
  split_and!; [exact H0 | exact H3 | run |].
  exact (loadPlugins_true_on_old_entries replaced_later H1 H2 H3).
Defined.

(** With "p1" configured twice and admitted at its first turn, the call
    returns at the second "p1": the factory has been called once, for the
    first. *)
Lemma loadPlugins_factory_calls_witness :
  (load_loop (configured_names twice_loaded) twice_loaded).1 = Some false /\
  factory_calls (history (loadPlugins twice_loaded).2) = ["tA"].
Proof.
  assert ((load_loop (configured_names twice_loaded) twice_loaded).1 = Some false)
    as H1 by run.
  split; [exact H1|].
  destruct (loadPlugins_factory_calls twice_loaded) as (processed & Hcalls & Hend).
  rewrite Hcalls. clear Hcalls. rewrite H1 in Hend.
  destruct Hend as (name & rest & Hnames & Hnone & Hreg).
  assert (configured_names twice_loaded = ["p1"; "p1"]) as H2 by run.
  rewrite H2 in Hnames.
  destruct processed as [|a [|b processed]].
  - injection Hnames as <- _. vm_compute in Hreg. discriminate.
  - injection Hnames as <- _ _. run.
  - injection Hnames as _ _ Hnil. destruct processed; discriminate.
Defined.

(** The one initializer call of the name "p1" got the instance 0. *)
Lemma initializer_never_gets_null_witness :
  reachable after_first_load /\
  CalledInitPlugin "p1" (Some 0) ∈ history after_first_load /\
  is_Some (Some 0).
Proof.
  assert (CalledInitPlugin "p1" (Some 0) ∈ history after_first_load) as H1.
  { assert (history after_first_load =
              [CalledLoadPlugin "tA"; CalledInitPlugin "p1" (Some 0);
               InfoLoaded "tA" "p1"; CalledLoadPlugin "tA";
               CalledInitPlugin "p2" (Some 1); ErrorCouldNotLoad "p2" "tA"])
      as -> by run.
    apply list_elem_of_further, list_elem_of_here. }
  split_and!; [exact reachable_after_first_load | exact H1 |].
  exact (initializer_never_gets_null after_first_load "p1" (Some 0)
           reachable_after_first_load H1).
Defined.

(** "p1" is configured with the type "tA" and recorded with it. *)
Lemma loadPlugins_records_configured_type_witness :
  reachable second_refused /\
  hasPlugin "p1" (self second_refused) = false /\
  hasPlugin "p1" (self (loadPlugins second_refused).2) = true /\
  getType "p1" (self (loadPlugins second_refused).2) = Returns "tA".
Proof.
  assert (hasPlugin "p1" (self second_refused) = false) as H1 by run.
  assert (hasPlugin "p1" (self (loadPlugins second_refused).2) = true) as H2 by run.
  split_and!; [exact reachable_second_refused | exact H1 | exact H2 |].
  rewrite (loadPlugins_records_configured_type second_refused "p1"
             reachable_second_refused H1 H2).
  run.
Defined.

(** Four parameters, one of another name: the last value of
    [is_robot_stuck] wins and the parent frame is renamed. *)
Lemma setParametersCallback_last_value_wins_witness :
  forallb RobotSimulator.well_typed RobotSimulator.renaming = true /\
  RobotSimulator.config_
    (RobotSimulator.setParametersCallback RobotSimulator.renaming
       RobotSimulator.cruising).2 =
    RobotSimulator.mkConfig false "map" "base_link".
Proof.
  assert (forallb RobotSimulator.well_typed RobotSimulator.renaming = true)
    as H1 by run.
  split; [exact H1|].
  rewrite (setParametersCallback_last_value_wins (tf2 := RobotSimulator.line)
             RobotSimulator.renaming RobotSimulator.cruising H1).
  run.
Defined.

(** The parent frame is renamed, then [is_robot_stuck] comes as a string:
    the callback throws, the parent frame stays renamed and the robot frame,
    which comes after, is not renamed. *)
Lemma setParametersCallback_throws_midway_witness :
  RobotSimulator.well_typed
    (RobotSimulator.mk_rclcpp_Parameter "is_robot_stuck"
       (RobotSimulator.PARAMETER_STRING "yes")) = false /\
  RobotSimulator.setParametersCallback
    ([RobotSimulator.mk_rclcpp_Parameter "parent_frame_id"
        (RobotSimulator.PARAMETER_STRING "map")] ++
     RobotSimulator.mk_rclcpp_Parameter "is_robot_stuck"
       (RobotSimulator.PARAMETER_STRING "yes") ::
     [RobotSimulator.mk_rclcpp_Parameter "robot_frame_id"
        (RobotSimulator.PARAMETER_STRING "chassis")])
    RobotSimulator.cruising =
  (RobotSimulator.ParameterTypeException,
   RobotSimulator.mkSimulator (RobotSimulator.mkConfig false "map" "base_link")
     (RobotSimulator.trf_parent_robot_ RobotSimulator.cruising)
     (RobotSimulator.current_velocity_ RobotSimulator.cruising)
     (RobotSimulator.outputs RobotSimulator.cruising)).
Proof.
  assert (forallb RobotSimulator.well_typed
            [RobotSimulator.mk_rclcpp_Parameter "parent_frame_id"
               (RobotSimulator.PARAMETER_STRING "map")] = true) as H1 by run.
  assert (RobotSimulator.well_typed
            (RobotSimulator.mk_rclcpp_Parameter "is_robot_stuck"
               (RobotSimulator.PARAMETER_STRING "yes")) = false) as H2 by run.
  split; [exact H2|].
  rewrite (setParametersCallback_throws_midway (tf2 := RobotSimulator.line)
             _ _ _ RobotSimulator.cruising H1 H2).
  run.
Defined.

(** After a drive, the parent frame is renamed to "map": the odometry of
    the next update is in "map", its transform still in "odom". *)
Lemma odometry_follows_parameters_witness :
  forallb RobotSimulator.well_typed RobotSimulator.renaming = true /\
  exists (trf : RobotSimulator.TransformStamped (tf2 := RobotSimulator.line))
         (odom : RobotSimulator.Odometry (tf2 := RobotSimulator.line)),
    RobotSimulator.sent_transforms
      (RobotSimulator.outputs
         (RobotSimulator.continuouslyUpdateRobotPose (tf2 := RobotSimulator.line) 9%Z
            (RobotSimulator.setParametersCallback RobotSimulator.renaming
               (RobotSimulator.exec_ops RobotSimulator.drive
                  RobotSimulator.cruising)).2)) =
      RobotSimulator.sent_transforms
        (RobotSimulator.outputs
           (RobotSimulator.exec_ops RobotSimulator.drive RobotSimulator.cruising))
      ++ [trf] /\
    RobotSimulator.frame_id (RobotSimulator.header trf) = "odom" /\
    RobotSimulator.frame_id (RobotSimulator.odom_header odom) = "map".
Proof.
  assert (forallb RobotSimulator.well_typed RobotSimulator.renaming = true)
    as H1 by run.
  split; [exact H1|].
  destruct (odometry_follows_parameters (tf2 := RobotSimulator.line)
              (RobotSimulator.mkConfig false "odom" "base_link") 0%Z 1%Z
              RobotSimulator.drive RobotSimulator.renaming 9%Z H1)
    as (trf & odom & Hout & Hh & _ & Hoh & _).
  exists trf, odom. split_and!.
  - fold RobotSimulator.cruising in Hout. rewrite Hout.
    unfold RobotSimulator.sent_transforms. rewrite !omap_app.
    f_equal; reflexivity.
  - rewrite Hh. reflexivity.
  - rewrite Hoh. run.
Defined.

(** The parked robot is sent on the drive and stays at 0. *)
Lemma stuck_robot_keeps_its_pose_witness :
  RobotSimulator.is_robot_stuck (RobotSimulator.config_ RobotSimulator.parked) = true /\
  forallb RobotSimulator.is_motion RobotSimulator.drive = true /\
  RobotSimulator.transform
    (RobotSimulator.trf_parent_robot_
       (RobotSimulator.exec_ops RobotSimulator.drive RobotSimulator.parked)) = 0%Z.
Proof.
  assert (RobotSimulator.is_robot_stuck
            (RobotSimulator.config_ RobotSimulator.parked) = true) as H1 by run.
  assert (forallb RobotSimulator.is_motion RobotSimulator.drive = true) as H2 by run.
  split_and!; [exact H1 | exact H2 |].
  destruct (stuck_robot_keeps_its_pose (tf2 := RobotSimulator.line)
              RobotSimulator.drive RobotSimulator.parked H1 H2) as (Htr & _).
  rewrite Htr. run.
Defined.

(** A command from the frame "camera" before the drive changes nothing of
    where the drive ends. *)
Lemma dropped_velocity_has_no_effect_witness :
  "camera" <> "base_link" /\
  RobotSimulator.trf_parent_robot_
    (RobotSimulator.exec_ops RobotSimulator.drive
       (RobotSimulator.velocityCallback RobotSimulator.from_camera 1%Z
          RobotSimulator.cruising)) =
  RobotSimulator.trf_parent_robot_
    (RobotSimulator.exec_ops RobotSimulator.drive RobotSimulator.cruising).
Proof.
  assert (RobotSimulator.frame_id
            (RobotSimulator.twist_header RobotSimulator.from_camera) <>
          RobotSimulator.robot_frame_id
            (RobotSimulator.config_ RobotSimulator.cruising)) as H1 by run.
  split; [run|].
  destruct (dropped_velocity_has_no_effect (tf2 := RobotSimulator.line)
              RobotSimulator.from_camera 1%Z RobotSimulator.drive
              RobotSimulator.cruising H1) as (_ & Htrf & _).
  exact Htrf.
Defined.

(** A request to jump given in the frame "map" is refused with the error
    of the parent frame. *)
Lemma refused_state_has_no_effect_witness :
  "map" <> "odom" /\
  RobotSimulator.success
    (RobotSimulator.setStateCallback RobotSimulator.jump_in_map
       (RobotSimulator.mkResponse true) 2%Z 3%Z RobotSimulator.cruising).1 = false /\
  RobotSimulator.outputs
    (RobotSimulator.setStateCallback RobotSimulator.jump_in_map
       (RobotSimulator.mkResponse true) 2%Z 3%Z RobotSimulator.cruising).2 =
    RobotSimulator.outputs RobotSimulator.cruising ++
    [RobotSimulator.ErrorSetStateParentFrame "odom" "map"] /\
  RobotSimulator.trf_parent_robot_
    (RobotSimulator.exec_ops RobotSimulator.drive
       (RobotSimulator.setStateCallback RobotSimulator.jump_in_map
          (RobotSimulator.mkResponse true) 2%Z 3%Z RobotSimulator.cruising).2) =
  RobotSimulator.trf_parent_robot_
    (RobotSimulator.exec_ops RobotSimulator.drive RobotSimulator.cruising).
Proof.
  assert (RobotSimulator.frame_id
            (RobotSimulator.header
               (RobotSimulator.request_transform RobotSimulator.jump_in_map)) <>
          RobotSimulator.parent_frame_id
            (RobotSimulator.config_ RobotSimulator.cruising)) as H1 by run.
  split; [run|].
  destruct (refused_state_has_no_effect (tf2 := RobotSimulator.line)
              RobotSimulator.jump_in_map (RobotSimulator.mkResponse true) 2%Z 3%Z
              RobotSimulator.drive RobotSimulator.cruising (or_introl H1))
    as (_ & Hres & Hout & _ & Htrf & _).
  split_and!; [exact Hres | rewrite Hout; run | exact Htrf].
Defined.

(** The parked robot is put at 7: it is there, and the response comes back
    as it was sent, [success] unwritten. *)
Lemma accepted_state_is_set_witness :
  (RobotSimulator.setStateCallback RobotSimulator.jump_to_seven
     (RobotSimulator.mkResponse false) 2%Z 3%Z RobotSimulator.parked).1 =
    RobotSimulator.mkResponse false /\
  RobotSimulator.transform
    (RobotSimulator.trf_parent_robot_
       (RobotSimulator.setStateCallback RobotSimulator.jump_to_seven
          (RobotSimulator.mkResponse false) 2%Z 3%Z RobotSimulator.parked).2) = 7%Z.
Proof.
  assert (RobotSimulator.frame_id
            (RobotSimulator.header
               (RobotSimulator.request_transform RobotSimulator.jump_to_seven)) =
          RobotSimulator.parent_frame_id
            (RobotSimulator.config_ RobotSimulator.parked)) as H1 by run.
  assert (RobotSimulator.set_velocity RobotSimulator.jump_to_seven = true ->
          RobotSimulator.frame_id
            (RobotSimulator.twist_header
               (RobotSimulator.velocity_robot RobotSimulator.jump_to_seven)) =
          RobotSimulator.robot_frame_id
            (RobotSimulator.config_ RobotSimulator.parked)) as H2.
  { intros Hset. vm_compute in Hset. discriminate. }
  destruct (accepted_state_is_set (tf2 := RobotSimulator.line)
              RobotSimulator.jump_to_seven (RobotSimulator.mkResponse false)
              2%Z 3%Z RobotSimulator.parked H1 H2)
    as (Hres & _ & _ & _ & _ & _ & Hpose).
  split; [exact Hres|]. rewrite Hpose; run.
Defined.
